(** * The authorizations list page of the identity client

    A shallow embedding of [identity/client/src/pages/authorizations/List.tsx]
    in its two versions:

    - [Stateful]: the version that keeps the active tab in component state
      ([useState]) and reconciles it with the URL through effects;
    - [Stateless]: the version that derives the active tab from the URL on
      every render.

    JavaScript values are modelled by [jsval], the query string by an
    association list, calls to collaborators (the router, the pagination hook,
    the state setter) by a trace of [Cmd]s, and the objects handled by the
    presentation transform by a heap of cells with references. *)

From stdpp Require Import gmap strings list sorting.
From Stdlib Require Import ZArith Sorted Permutation.

Local Open Scope Z_scope.

(** ** JavaScript values *)

(** The values the component tests and compares: [searchParams.get] returns
    [string | null], an array lookup returns an element or [undefined].
    A character of a [string] stands for one UTF-16 code unit (below 256). *)
Inductive jsval : Type :=
  | Null
  | Undefined
  | Str (s : string).

#[global] Instance jsval_eq_dec : EqDecision jsval.
Proof. solve_decision. Defined.

(** [ToBoolean]: [null], [undefined] and the empty string are falsy. *)
Definition truthy (v : jsval) : bool :=
  match v with
  | Str s => negb (bool_decide (s = ""))
  | Null | Undefined => false
  end.

(** [String(v)], the conversion the URL API applies to the values it stores. *)
Definition js_String (v : jsval) : string :=
  match v with
  | Null => "null"
  | Undefined => "undefined"
  | Str s => s
  end.

(** [a === b] on these values. *)
Definition strict_eq (a b : jsval) : bool := bool_decide (a = b).

(** The values of the [ResourceType] string enumeration are strings. *)
Abbreviation ResourceType := string.

(** [arr[i]] for a number [i] (an integer here): [undefined] out of range. *)
Definition array_get (arr : list ResourceType) (i : Z) : jsval :=
  if bool_decide (0 ≤ i) then
    match arr !! Z.to_nat i with
    | Some x => Str x
    | None => Undefined
    end
  else Undefined.

(** [arr.includes(v)]. *)
Definition includes (arr : list ResourceType) (v : jsval) : bool :=
  bool_decide (v ∈ Str <$> arr).

(** [arr.indexOf(v)]: the first index holding [v], or [-1]. *)
Fixpoint indexOf_from (arr : list ResourceType) (v : jsval) (i : Z) : Z :=
  match arr with
  | [] => -1
  | x :: rest => if bool_decide (Str x = v) then i else indexOf_from rest v (i + 1)
  end.

Definition indexOf (arr : list ResourceType) (v : jsval) : Z := indexOf_from arr v 0.

(** ** The query string *)

(** [URLSearchParams]: an ordered list of name-value pairs. *)
Definition URLSearchParams : Type := list (string * string).

(** [searchParams.get(name)]: the first value stored under [name], or [null]. *)
Fixpoint get (searchParams : URLSearchParams) (name : string) : jsval :=
  match searchParams with
  | [] => Null
  | (k, v) :: rest => if bool_decide (k = name) then Str v else get rest name
  end.

(** [searchParams.set(name, value)]: the first pair named [name] receives the
    value and the other pairs of that name are removed; without such a pair,
    one is appended. *)
Fixpoint set (searchParams : URLSearchParams) (name value : string) : URLSearchParams :=
  match searchParams with
  | [] => [(name, value)]
  | (k, v) :: rest =>
      if bool_decide (k = name)
      then (name, value) :: filter (λ kv, kv.1 ≠ name) rest
      else (k, v) :: set rest name value
  end.

(** [createSearchParams({ resourceType: v })], what the router makes of the
    object literal handed to [setSearchParams]. *)
Definition createSearchParams (resourceType : jsval) : URLSearchParams :=
  [("resourceType", js_String resourceType)].

(** ** Calls to collaborators *)

(** The second argument of [setSearchParams]: [{ replace: true }]. *)
Record NavigateOptions : Type := { replace : bool }.

(** What handlers and effects of the component call: the state setter of
    [useState], the router's [setSearchParams], and the [resetPagination] and
    [reload] functions returned by [usePaginatedApi]. A handler or an effect
    is the list of its calls, in program order. *)
Inductive Cmd : Type :=
  | setActiveTab (tab : jsval)
  | setSearchParams (nextInit : URLSearchParams) (navigateOptions : option NavigateOptions)
  | resetPagination
  | reload.

#[global] Instance NavigateOptions_eq_dec : EqDecision NavigateOptions.
Proof. solve_decision. Defined.

#[global] Instance Cmd_eq_dec : EqDecision Cmd.
Proof. solve_decision. Defined.

(** The router navigates in push mode unless the options ask for replace. *)
Inductive NavigationMode : Type := Push | Replace.

#[global] Instance NavigationMode_eq_dec : EqDecision NavigationMode.
Proof. solve_decision. Defined.

Definition navigation_mode (navigateOptions : option NavigateOptions) : NavigationMode :=
  match navigateOptions with
  | Some {| replace := true |} => Replace
  | Some {| replace := false |} | None => Push
  end.

(** The session history as far as the component can tell: the query string
    of the current entry and of the entries behind it. *)
Record Router : Type := { location : URLSearchParams; past : list URLSearchParams }.

Definition navigate (mode : NavigationMode) (next : URLSearchParams) (r : Router) : Router :=
  match mode with
  | Push => {| location := next; past := location r :: past r |}
  | Replace => {| location := next; past := past r |}
  end.

Definition history_length (r : Router) : nat := S (length (past r)).

(** [useEffect(body, deps)]: the body runs after the first render and after
    every render whose dependencies differ from those of the render before. *)
Definition useEffect {D : Type} `{EqDecision D}
    (body : list Cmd) (deps : D) (previous : option D) : list Cmd :=
  match previous with
  | None => body
  | Some d => if decide (d = deps) then [] else body
  end.

(** ** Objects and arrays on the heap *)

(** The data page handed to the presentation transform is an object whose
    [items] property refers to an array of record objects, each with a
    [permissionTypes] array. Objects and arrays are heap cells named by
    references, so that copying ([...x]) and sorting in place ([x.sort()])
    can be told apart. *)
Definition loc : Type := positive.

Inductive val : Type :=
  | VUndefined
  | VNull
  | VBool (b : bool)
  | VNum (n : Z)
  | VStr (s : string)
  | VRef (l : loc).

#[global] Instance val_eq_dec : EqDecision val.
Proof. solve_decision. Defined.

Inductive cell : Type :=
  | Obj (props : gmap string val)
  | Arr (elems : list val).

(** A computation on the heap; [None] stands for a thrown [TypeError]. *)
Definition M (A : Type) : Type := gmap loc cell → option (A * gmap loc cell).

#[global] Instance M_ret : MRet M := λ A (a : A) h, Some (a, h).

#[global] Instance M_bind : MBind M := λ A B (f : A → M B) (m : M A) h,
  match m h with
  | Some (a, h') => f a h'
  | None => None
  end.

Definition throw {A : Type} : M A := λ _, None.

(** A new cell at an unused reference. *)
Definition alloc (c : cell) : M val :=
  λ h, let l := fresh (dom h) in Some (VRef l, <[l := c]> h).

(** An update of an existing cell in place. *)
Definition store (l : loc) (c : cell) : M unit :=
  λ h, Some (tt, <[l := c]> h).

Definition load_obj (v : val) : M (gmap string val) :=
  λ h, match v with
       | VRef l => match h !! l with Some (Obj props) => Some (props, h) | _ => None end
       | _ => None
       end.

Definition load_arr (v : val) : M (list val) :=
  λ h, match v with
       | VRef l => match h !! l with Some (Arr elems) => Some (elems, h) | _ => None end
       | _ => None
       end.

(** [o.k]: a missing property reads as [undefined]. *)
Definition get_prop (props : gmap string val) (k : string) : val :=
  default VUndefined (props !! k).

(** [ToBoolean] on heap values: every object is truthy. *)
Definition val_truthy (v : val) : bool :=
  match v with
  | VUndefined | VNull => false
  | VBool b => b
  | VNum n => negb (bool_decide (n = 0))
  | VStr s => negb (bool_decide (s = ""))
  | VRef _ => true
  end.

Definition as_str (v : val) : option string :=
  match v with
  | VStr s => Some s
  | _ => None
  end.

(** [[...a]] for an array [a]: a new array with the same elements. *)
Definition array_spread (a : val) : M val :=
  elems ← load_arr a; alloc (Arr elems).

(** [a.sort()] without a comparator on an array of strings: the array is
    sorted in place, ascending by code units, and is itself the result.
    The outcome is the one sorted arrangement of the elements, whatever the
    engine's algorithm; merge sort computes it here. *)
Definition array_sort (a : val) : M val :=
  elems ← load_arr a;
  match a, mapM as_str elems with
  | VRef l, Some strs => _ ← store l (Arr (VStr <$> merge_sort String.le strs)); mret a
  | _, _ => throw
  end.

(** [a.map(f)]: [f] runs on the elements in order, and the results form a
    new array. *)
Fixpoint map_elems (f : val → M val) (elems : list val) : M (list val) :=
  match elems with
  | [] => mret []
  | x :: rest => y ← f x; ys ← map_elems f rest; mret (y :: ys)
  end.

Definition array_map (f : val → M val) (a : val) : M val :=
  elems ← load_arr a; mapped ← map_elems f elems; alloc (Arr mapped).

(** ** The presentation transform (the same in both versions) *)

(** [(item) => ({ ...item, permissionTypes: [...item.permissionTypes].sort() })] *)
Definition sortItem (item : val) : M val :=
  props ← load_obj item;
  copy ← array_spread (get_prop props "permissionTypes");
  sorted ← array_sort copy;
  alloc (Obj (<["permissionTypes" := sorted]> props)).

(** [authorizationData] has the type of [data]: the page object, or [null]
    or [undefined]. The model follows the source on these; on a value of
    another shape (which the types exclude) it stops with [None]. *)
Definition sortPermissionTypesAlphabetically (authorizationData : val) : M val :=
  if val_truthy authorizationData then
    props ← load_obj authorizationData;
    items ← match get_prop props "items" with
            | VUndefined | VNull => mret VUndefined
            | a => array_map sortItem a
            end;
    alloc (Obj (<["items" := items]> props))
  else mret authorizationData.

(** *** Reading a page back from the heap *)

(** A record as the list component sees it: its permission types, and its
    other properties. *)
Record ItemView : Type := {
  item_fields : gmap string val;
  item_permissionTypes : list string;
}.

Record PageView : Type := {
  page_fields : gmap string val;
  page_items : option (list ItemView);
}.

Definition read_strings (h : gmap loc cell) (v : val) : option (list string) :=
  match v with
  | VRef l => match h !! l with Some (Arr elems) => mapM as_str elems | _ => None end
  | _ => None
  end.

Definition read_item (h : gmap loc cell) (v : val) : option ItemView :=
  match v with
  | VRef l =>
      match h !! l with
      | Some (Obj props) =>
          strs ← read_strings h (get_prop props "permissionTypes");
          Some {| item_fields := delete "permissionTypes" props;
                  item_permissionTypes := strs |}
      | _ => None
      end
  | _ => None
  end.

Definition read_items (h : gmap loc cell) (v : val) : option (option (list ItemView)) :=
  match v with
  | VUndefined | VNull => Some None
  | VRef l =>
      match h !! l with
      | Some (Arr elems) => Some <$> mapM (read_item h) elems
      | _ => None
      end
  | _ => None
  end.

Definition read_page (h : gmap loc cell) (v : val) : option PageView :=
  match v with
  | VRef l =>
      match h !! l with
      | Some (Obj props) =>
          items ← read_items h (get_prop props "items");
          Some {| page_fields := delete "items" props; page_items := items |}
      | _ => None
      end
  | _ => None
  end.

(** The page the transform is specified to produce. *)
Definition sorted_item (i : ItemView) : ItemView :=
  {| item_fields := item_fields i;
     item_permissionTypes := merge_sort String.le (item_permissionTypes i) |}.

Definition sorted_page (p : PageView) : PageView :=
  {| page_fields := page_fields p;
     page_items := (λ items : list ItemView, sorted_item <$> items) <$> page_items p |}.

(** The cells a page is made of: the record object and its permission
    array, for each record; the page object, its items array and the cells
    of its records. *)
Definition item_refs (h : gmap loc cell) (v : val) : list loc :=
  match v with
  | VRef l =>
      l :: match h !! l with
           | Some (Obj props) =>
               match get_prop props "permissionTypes" with
               | VRef a => [a]
               | _ => []
               end
           | _ => []
           end
  | _ => []
  end.

Definition page_refs (h : gmap loc cell) (v : val) : list loc :=
  match v with
  | VRef l =>
      l :: match h !! l with
           | Some (Obj props) =>
               match get_prop props "items" with
               | VRef a =>
                   a :: match h !! a with
                        | Some (Arr elems) => elems ≫= item_refs h
                        | _ => []
                        end
               | _ => []
               end
           | _ => []
           end
  | _ => []
  end.

(** ** The component, stateful version *)

Module Stateful.
Section Component.
(** [Object.values(ResourceType)] and [ResourceType.TENANT], from the
    enumeration declared in [src/utility/api/authorizations]; the flag
    [isTenantsApiEnabled] from [src/configuration]; the translation
    function [t] of [useTranslate]. *)
Variable ResourceType_values : list ResourceType.
Variable TENANT : ResourceType.
Variable isTenantsApiEnabled : bool.
Variable t : string → string.

Definition authorizationTabs : list ResourceType :=
  let allResourceTypes := ResourceType_values in
  if negb isTenantsApiEnabled
  then filter (λ type, type ≠ TENANT) allResourceTypes
  else allResourceTypes.

(** [a && b] followed by a test of the result: [isValidResourceType]
    is used as the condition of the conditional only. *)
Definition getActiveTabFromUrl (searchParams : URLSearchParams) : jsval :=
  let resourceTypeFromUrl := get searchParams "resourceType" in
  let isValidResourceType :=
    truthy resourceTypeFromUrl && includes authorizationTabs resourceTypeFromUrl in
  if isValidResourceType then resourceTypeFromUrl else array_get authorizationTabs 0.

(** What one render reads: the router's query string and the [activeTab]
    state. *)
Record Render : Type := { searchParams : URLSearchParams; activeTab : jsval }.

#[global] Instance Render_eq_dec : EqDecision Render.
Proof. solve_decision. Defined.

(** The first render: [useState(getActiveTabFromUrl())]. *)
Definition mount (searchParams : URLSearchParams) : Render :=
  {| searchParams := searchParams; activeTab := getActiveTabFromUrl searchParams |}.

(** Effect 1, dependencies [[getActiveTabFromUrl, activeTab]]; the callback
    changes with [searchParams] ([authorizationTabs] is memoized once). *)
Definition syncActiveTab (r : Render) : list Cmd :=
  let tabFromUrl := getActiveTabFromUrl (searchParams r) in
  if negb (strict_eq tabFromUrl (activeTab r)) then [setActiveTab tabFromUrl] else [].

(** Effect 2, dependencies [[activeTab, searchParams, setSearchParams]]. *)
Definition syncUrl (r : Render) : list Cmd :=
  let resourceTypeFromUrl := get (searchParams r) "resourceType" in
  if negb (strict_eq resourceTypeFromUrl (activeTab r)) then
    let newSearchParams := searchParams r in
    let newSearchParams := set newSearchParams "resourceType" (js_String (activeTab r)) in
    [setSearchParams newSearchParams (Some {| replace := true |})]
  else [].

(** Effect 3, dependencies [[activeTab, resetPagination]]. *)
Definition resetOnTabChange (r : Render) : list Cmd := [resetPagination].

(** The effect phase of a render, the effects in the order of their
    declaration. [previous] is the render before ([None] at mount). The
    functions among the dependencies ([setSearchParams],
    [resetPagination]) are taken as stable. *)
Definition effects (previous : option Render) (r : Render) : list Cmd :=
  useEffect (syncActiveTab r) (searchParams r, activeTab r)
            ((λ p, (searchParams p, activeTab p)) <$> previous)
  ++ useEffect (syncUrl r) (activeTab r, searchParams r)
            ((λ p, (activeTab p, searchParams p)) <$> previous)
  ++ useEffect (resetOnTabChange r) (activeTab r) (activeTab <$> previous).

Definition handleTabChange (selectedIndex : Z) : list Cmd :=
  let newTab := array_get authorizationTabs selectedIndex in
  [setActiveTab newTab].

(** *** The rendered page, as far as it depends on the component's logic *)

Record ActionButton : Type := { label : string; onClick : list Cmd }.

Record InlineNotification : Type := { title : string; actionButton : ActionButton }.

Record View : Type := {
  tabs : list string;
  selectedIndex : Z;
  onChange : Z → list Cmd;
  errorNotification : option InlineNotification;
}.

(** [loading] and [success] come from [usePaginatedApi]; the
    collaborator's [reload] is handed to the button as it is. *)
Definition render (r : Render) (loading success : bool) : View :=
  {| tabs := t <$> authorizationTabs;
     selectedIndex := indexOf authorizationTabs (activeTab r);
     onChange := handleTabChange;
     errorNotification :=
       if negb loading && negb success
       then Some {| title := t "authorizationLoadError";
                    actionButton := {| label := t "retry"; onClick := [reload] |} |}
       else None |}.

(** *** The update loop *)

(** The component together with the router: the state the next render
    reads, and the render before it. *)
Record World : Type := {
  router : Router;
  state : jsval;
  rendered : option Render;
}.

Definition current (w : World) : Render :=
  {| searchParams := location (router w); activeTab := state w |}.

(** Calls of the state setter and of the router take effect for the next
    render; the calls into the pagination hook do not touch the
    component's own state. *)
Definition run_cmd (w : World) (c : Cmd) : World :=
  match c with
  | setActiveTab tab => {| router := router w; state := tab; rendered := rendered w |}
  | setSearchParams next opts =>
      {| router := navigate (navigation_mode opts) next (router w);
         state := state w; rendered := rendered w |}
  | resetPagination | reload => w
  end.

(** One render with its effect phase. *)
Definition commit (w : World) : World :=
  let r := current w in
  let w' := foldl run_cmd w (effects (rendered w) r) in
  {| router := router w'; state := state w'; rendered := Some r |}.

Definition start (searchParams : URLSearchParams) (history : list URLSearchParams) : World :=
  {| router := {| location := searchParams; past := history |};
     state := activeTab (mount searchParams);
     rendered := None |}.

(** A navigation from outside the component (back, forward, an edited URL):
    the router shows another query string. *)
Definition external_navigation (next : URLSearchParams) (w : World) : World :=
  {| router := {| location := next; past := past (router w) |};
     state := state w; rendered := rendered w |}.

(** The calls of the next render's effect phase. *)
Definition pending (w : World) : list Cmd := effects (rendered w) (current w).

(** The URL holds the active tab and resolves to it: neither
    synchronization effect has anything to do. *)
Definition settled (r : Render) : Prop :=
  get (searchParams r) "resourceType" = activeTab r
  ∧ getActiveTabFromUrl (searchParams r) = activeTab r.

(** The state holds the tab [x] while the URL holds the tab [y], and the
    render before differs from the one to come. *)
Definition crossed (x y : ResourceType) (w : World) : Prop :=
  state w = Str x
  ∧ get (location (router w)) "resourceType" = Str y
  ∧ rendered w ≠ Some (current w).

(** The user selects the tab at [selectedIndex]. *)
Definition select_tab (selectedIndex : Z) (w : World) : World :=
  foldl run_cmd w (handleTabChange selectedIndex).
End Component.
End Stateful.

(** ** The component, stateless version *)

Module Stateless.
Section Component.
Variable ResourceType_values : list ResourceType.
Variable TENANT : ResourceType.
Variable isTenantsApiEnabled : bool.
Variable t : string → string.

Definition authorizationTabs : list ResourceType :=
  let allResourceTypes := ResourceType_values in
  let authorizationTabs := allResourceTypes in
  if negb isTenantsApiEnabled
  then filter (λ type, type ≠ TENANT) authorizationTabs
  else authorizationTabs.

Definition resourceTypeFromUrl (searchParams : URLSearchParams) : jsval :=
  get searchParams "resourceType".

Definition initialTab (searchParams : URLSearchParams) : jsval :=
  let isValidResourceType :=
    truthy (resourceTypeFromUrl searchParams)
    && includes authorizationTabs (resourceTypeFromUrl searchParams) in
  if isValidResourceType
  then resourceTypeFromUrl searchParams
  else array_get authorizationTabs 0.

(** [const activeTab = initialTab], computed on every render. *)
Definition activeTab (searchParams : URLSearchParams) : jsval := initialTab searchParams.

(** The only effect, dependencies
    [[activeTab, resourceTypeFromUrl, setSearchParams]]. *)
Definition syncUrl (searchParams : URLSearchParams) : list Cmd :=
  if negb (strict_eq (resourceTypeFromUrl searchParams) (activeTab searchParams)) then
    [setSearchParams (createSearchParams (activeTab searchParams))
                     (Some {| replace := true |})]
  else [].

Definition effects (previous : option URLSearchParams) (searchParams : URLSearchParams)
    : list Cmd :=
  useEffect (syncUrl searchParams)
            (activeTab searchParams, resourceTypeFromUrl searchParams)
            ((λ p, (activeTab p, resourceTypeFromUrl p)) <$> previous).

Definition handleTabChange (selectedIndex : Z) : list Cmd :=
  let newTab := array_get authorizationTabs selectedIndex in
  [resetPagination; setSearchParams (createSearchParams newTab) None].

(** The URL holds the active tab: the effect has nothing to write. *)
Definition settled (searchParams : URLSearchParams) : Prop :=
  resourceTypeFromUrl searchParams = activeTab searchParams.

#[global] Instance settled_dec (searchParams : URLSearchParams) :
  Decision (settled searchParams).
Proof. unfold settled. apply _. Defined.

Record ActionButton : Type := { label : string; onClick : list Cmd }.

Record InlineNotification : Type := { title : string; actionButton : ActionButton }.

Record View : Type := {
  tabs : list string;
  selectedIndex : Z;
  onChange : Z → list Cmd;
  errorNotification : option InlineNotification;
}.

Definition render (searchParams : URLSearchParams) (loading success : bool) : View :=
  {| tabs := t <$> authorizationTabs;
     selectedIndex := indexOf authorizationTabs (activeTab searchParams);
     onChange := handleTabChange;
     errorNotification :=
       if negb loading && negb success
       then Some {| title := t "authorizationLoadError";
                    actionButton := {| label := t "retry"; onClick := [reload] |} |}
       else None |}.

(** The component has no state of its own: the world is the router and the
    query string of the render before. *)
Record World : Type := {
  router : Router;
  rendered : option URLSearchParams;
}.

Definition run_cmd (w : World) (c : Cmd) : World :=
  match c with
  | setSearchParams next opts =>
      {| router := navigate (navigation_mode opts) next (router w);
         rendered := rendered w |}
  | setActiveTab _ | resetPagination | reload => w
  end.

Definition commit (w : World) : World :=
  let searchParams := location (router w) in
  let w' := foldl run_cmd w (effects (rendered w) searchParams) in
  {| router := router w'; rendered := Some searchParams |}.

Definition start (searchParams : URLSearchParams) (history : list URLSearchParams) : World :=
  {| router := {| location := searchParams; past := history |}; rendered := None |}.

(** A navigation from outside the component (back, forward, an edited URL):
    the router shows another query string. *)
Definition external_navigation (next : URLSearchParams) (w : World) : World :=
  {| router := {| location := next; past := past (router w) |}; rendered := rendered w |}.

(** The user selects the tab at [selectedIndex]. *)
Definition select_tab (selectedIndex : Z) (w : World) : World :=
  foldl run_cmd w (handleTabChange selectedIndex).
End Component.
End Stateless.

(** ** Reading traces *)

(** The writes of the query string among the calls of a trace, each with
    its navigation mode. *)
Definition writes (trace : list Cmd) : list (URLSearchParams * NavigationMode) :=
  omap (λ c, match c with
             | setSearchParams next opts => Some (next, navigation_mode opts)
             | _ => None
             end) trace.

(** [k] clicks on a button run its handler [k] times. *)
Definition clicks (k : nat) (handler : list Cmd) : list Cmd :=
  mjoin (replicate k handler).

Definition count_calls (c : Cmd) (trace : list Cmd) : nat :=
  length (filter (λ c', c' = c) trace).

(** A value is a member of the tab set. *)
Definition is_tab (tabs : list ResourceType) (v : jsval) : Prop :=
  ∃ x, v = Str x ∧ x ∈ tabs.

(** ** An enumeration to run the definitions on *)

Definition sample_values : list ResourceType := ["authorization"; "tenant"; "user"].

Definition sample_tenant : ResourceType := "tenant".

(** A page of one record with the permission types WRITE, READ, CREATE:
    the array (cell 1), the record (2), the items array (3), the page (4). *)
Definition sample_heap : gmap loc cell :=
  <[4%positive := Obj (<["items" := VRef 3%positive]> (<["totalItems" := VNum 1]> ∅))]>
  (<[3%positive := Arr [VRef 2%positive]]>
  (<[2%positive := Obj (<["authorizationKey" := VStr "42"]>
                       (<["resourceType" := VStr "user"]>
                       (<["permissionTypes" := VRef 1%positive]> ∅)))]>
  (<[1%positive := Arr [VStr "WRITE"; VStr "READ"; VStr "CREATE"]]> ∅))).

Definition sample_page : val := VRef 4%positive.

(** A page whose [items] is [null]. *)
Definition empty_page_props : gmap string val :=
  <["items" := VNull]> (<["totalItems" := VNum 0]> ∅).

Definition empty_page_heap : gmap loc cell := <[1%positive := Obj empty_page_props]> ∅.

(** The sample page with a second record that has no permission types. *)
Definition broken_heap : gmap loc cell :=
  <[5%positive := Obj (<["authorizationKey" := VStr "43"]> ∅)]>
    (<[3%positive := Arr [VRef 2%positive; VRef 5%positive]]> sample_heap).

Definition sample_view : PageView :=
  {| page_fields := <["totalItems" := VNum 1]> ∅;
     page_items := Some [
       {| item_fields := <["authorizationKey" := VStr "42"]>
                         (<["resourceType" := VStr "user"]> ∅);
          item_permissionTypes := ["WRITE"; "READ"; "CREATE"] |} ] |}.

Definition sample_view_sorted : PageView :=
  {| page_fields := <["totalItems" := VNum 1]> ∅;
     page_items := Some [
       {| item_fields := <["authorizationKey" := VStr "42"]>
                         (<["resourceType" := VStr "user"]> ∅);
          item_permissionTypes := ["CREATE"; "READ"; "WRITE"] |} ] |}.

(** The transform followed by reading its result back. *)
Definition transformed_view (h : gmap loc cell) (v : val) : option PageView :=
  match sortPermissionTypesAlphabetically v h with
  | Some (out, h') => read_page h' out
  | None => None
  end.

(** * Properties *)

(** ** Arrays and the query string *)

Lemma array_get_0 (arr : list ResourceType) :
  array_get arr 0 = match arr with [] => Undefined | x :: _ => Str x end.
Proof. by destruct arr. Qed.

Lemma array_get_0_head (arr : list ResourceType) :
  arr ≠ [] → Some (array_get arr 0) = Str <$> head arr.
Proof. by destruct arr. Qed.

Lemma array_get_in_range (arr : list ResourceType) (i : Z) (x : ResourceType) :
  0 ≤ i → arr !! Z.to_nat i = Some x → array_get arr i = Str x.
Proof.
  intros Hi Hx. unfold array_get.
  rewrite bool_decide_true by done. by rewrite Hx.
Qed.

Lemma array_get_out_of_range (arr : list ResourceType) (i : Z) :
  i < 0 ∨ Z.of_nat (length arr) ≤ i → array_get arr i = Undefined.
Proof.
  intros Hi. unfold array_get. case_bool_decide; [|done].
  rewrite lookup_ge_None_2; [done|lia].
Qed.

Lemma includes_Str (arr : list ResourceType) (x : ResourceType) :
  includes arr (Str x) = true ↔ x ∈ arr.
Proof.
  unfold includes. rewrite bool_decide_eq_true, list_elem_of_fmap. split.
  - intros (y & [= ->] & Hy). done.
  - intros Hx. by exists x.
Qed.

Lemma truthy_Str (s : string) : truthy (Str s) = true ↔ s ≠ "".
Proof. simpl. rewrite negb_true_iff, bool_decide_eq_false. done. Qed.

Lemma get_set (searchParams : URLSearchParams) (name value : string) :
  get (set searchParams name value) name = Str value.
Proof.
  induction searchParams as [|[k v] rest IH]; simpl.
  - by rewrite bool_decide_true.
  - case_bool_decide; simpl.
    + by rewrite bool_decide_true.
    + by rewrite bool_decide_false.
Qed.

Lemma get_createSearchParams (v : jsval) :
  get (createSearchParams v) "resourceType" = Str (js_String v).
Proof. reflexivity. Qed.

(** ** Active-tab resolution *)

Section Resolution.
Variable ResourceType_values : list ResourceType.
Variable TENANT : ResourceType.
Variable isTenantsApiEnabled : bool.

Let tabs := Stateful.authorizationTabs ResourceType_values TENANT isTenantsApiEnabled.
Let getActiveTabFromUrl :=
  Stateful.getActiveTabFromUrl ResourceType_values TENANT isTenantsApiEnabled.

Lemma stateless_tabs :
  Stateless.authorizationTabs ResourceType_values TENANT isTenantsApiEnabled = tabs.
Proof. reflexivity. Qed.

Lemma stateless_initialTab (searchParams : URLSearchParams) :
  Stateless.initialTab ResourceType_values TENANT isTenantsApiEnabled searchParams
  = getActiveTabFromUrl searchParams.
Proof. reflexivity. Qed.

Lemma tabs_subset (x : ResourceType) : x ∈ tabs → x ∈ ResourceType_values.
Proof.
  unfold tabs, Stateful.authorizationTabs.
  destruct isTenantsApiEnabled; simpl; [done|].
  by intros [_ ?]%list_elem_of_filter.
Qed.

(** The exact behaviour of the resolution, with the truthiness test of the
    source spelled out. *)
Lemma getActiveTabFromUrl_cases (searchParams : URLSearchParams) :
  getActiveTabFromUrl searchParams =
    match get searchParams "resourceType" with
    | Str v => if bool_decide (v ≠ "" ∧ v ∈ tabs) then Str v else array_get tabs 0
    | _ => array_get tabs 0
    end.
Proof.
  unfold getActiveTabFromUrl, Stateful.getActiveTabFromUrl. fold tabs.
  destruct (get searchParams "resourceType") as [| |v]; simpl; try done.
  destruct (bool_decide (v = "")) eqn:Hv; simpl.
  - apply bool_decide_eq_true in Hv. rewrite bool_decide_false; [done|]. tauto.
  - apply bool_decide_eq_false in Hv.
    destruct (includes tabs (Str v)) eqn:Hin.
    + apply includes_Str in Hin. by rewrite bool_decide_true.
    + rewrite bool_decide_false; [done|].
      intros [_ Hin']. apply includes_Str in Hin'. congruence.
Qed.

Lemma getActiveTabFromUrl_member (searchParams : URLSearchParams) (v : ResourceType) :
  "" ∉ ResourceType_values →
  get searchParams "resourceType" = Str v → v ∈ tabs →
  getActiveTabFromUrl searchParams = Str v.
Proof.
  intros Hne Hget Hin. rewrite getActiveTabFromUrl_cases, Hget.
  rewrite bool_decide_true; [done|]. split; [|done].
  intros ->. by apply Hne, tabs_subset.
Qed.

Lemma getActiveTabFromUrl_default (searchParams : URLSearchParams) :
  (∀ v, get searchParams "resourceType" = Str v → v ∉ tabs) →
  getActiveTabFromUrl searchParams = array_get tabs 0.
Proof.
  intros Hnot. rewrite getActiveTabFromUrl_cases.
  destruct (get searchParams "resourceType") as [| |v] eqn:Hget; try done.
  rewrite bool_decide_false; [done|]. intros [_ Hin]. by eapply Hnot.
Qed.

Lemma getActiveTabFromUrl_in_tabs (searchParams : URLSearchParams) :
  tabs ≠ [] → ∃ x, getActiveTabFromUrl searchParams = Str x ∧ x ∈ tabs.
Proof.
  intros Hne. rewrite getActiveTabFromUrl_cases.
  assert (∃ x, array_get tabs 0 = Str x ∧ x ∈ tabs) as Hfirst.
  { rewrite array_get_0. destruct tabs as [|x rest]; [done|].
    exists x. split; [done|]. apply list_elem_of_here. }
  destruct (get searchParams "resourceType") as [| |v]; try done.
  case_bool_decide as Hv; [|done]. exists v. tauto.
Qed.
End Resolution.

(** C1. For every query string and every non-empty computed tab set (of an
    enumeration whose values are non-empty strings), the active-tab
    resolution of both versions returns the value of the [resourceType]
    parameter when it is present and a member of the tab set, and the first
    element of the tab set when the parameter is absent or not a member;
    the resolved tab is always a member of the tab set. *)
Theorem C1_active_tab_resolution
    (ResourceType_values : list ResourceType) (TENANT : ResourceType)
    (isTenantsApiEnabled : bool) (searchParams : URLSearchParams) :
  "" ∉ ResourceType_values →
  Stateful.authorizationTabs ResourceType_values TENANT isTenantsApiEnabled ≠ [] →
  let tabs := Stateful.authorizationTabs ResourceType_values TENANT isTenantsApiEnabled in
  let param := get searchParams "resourceType" in
  let result :=
    Stateful.getActiveTabFromUrl ResourceType_values TENANT isTenantsApiEnabled searchParams in
  Stateless.initialTab ResourceType_values TENANT isTenantsApiEnabled searchParams = result
  ∧ (∀ v, param = Str v → v ∈ tabs → result = Str v)
  ∧ (param = Null → Some result = Str <$> head tabs)
  ∧ (∀ v, param = Str v → v ∉ tabs → Some result = Str <$> head tabs)
  ∧ (∃ x, result = Str x ∧ x ∈ tabs).
Proof.
  intros Hvalues Htabs tabs param result.
  pose proof (array_get_0_head tabs Htabs) as Hfirst.
  split; [apply stateless_initialTab|].
  split; [intros v Hv Hin; by apply getActiveTabFromUrl_member|].
  split.
  - intros Hnull. rewrite <- Hfirst. f_equal.
    apply getActiveTabFromUrl_default. intros v Hv. unfold param in Hnull. congruence.
  - split; [|by apply getActiveTabFromUrl_in_tabs].
    intros v Hv Hnot. rewrite <- Hfirst. f_equal.
    apply getActiveTabFromUrl_default. intros v' Hv'.
    unfold param in Hv. by assert (v' = v) as -> by congruence.
Qed.

Lemma C1_active_tab_resolution_witness :
  let tabs := Stateful.authorizationTabs sample_values sample_tenant false in
  let param := get [("page", "2"); ("resourceType", "user")] "resourceType" in
  let result :=
    Stateful.getActiveTabFromUrl sample_values sample_tenant false
      [("page", "2"); ("resourceType", "user")] in
  Stateless.initialTab sample_values sample_tenant false
    [("page", "2"); ("resourceType", "user")] = result
  ∧ (∀ v, param = Str v → v ∈ tabs → result = Str v)
  ∧ (param = Null → Some result = Str <$> head tabs)
  ∧ (∀ v, param = Str v → v ∉ tabs → Some result = Str <$> head tabs)
  ∧ (∃ x, result = Str x ∧ x ∈ tabs).
Proof.
  apply (C1_active_tab_resolution sample_values sample_tenant false
           [("page", "2"); ("resourceType", "user")]).
  - apply (bool_decide_unpack _). vm_compute. exact I.
  - vm_compute. discriminate.
Defined.

(** C9. The two versions compute the same active tab: for every query
    string and every value of the tenant flag, the tab the stateless
    version derives on a render equals the initial [activeTab] state of the
    stateful version (and both derive it from the same tab set). *)
Theorem C9_versions_agree_on_active_tab
    (ResourceType_values : list ResourceType) (TENANT : ResourceType)
    (isTenantsApiEnabled : bool) (searchParams : URLSearchParams) :
  Stateless.authorizationTabs ResourceType_values TENANT isTenantsApiEnabled
  = Stateful.authorizationTabs ResourceType_values TENANT isTenantsApiEnabled
  ∧ Stateless.activeTab ResourceType_values TENANT isTenantsApiEnabled searchParams
    = Stateful.activeTab
        (Stateful.mount ResourceType_values TENANT isTenantsApiEnabled searchParams).
Proof.
  split.
  - apply stateless_tabs.
  - unfold Stateless.activeTab, Stateful.mount. simpl. apply stateless_initialTab.
Qed.

(** ** The tab set *)

Section TabSet.
Variable ResourceType_values : list ResourceType.
Variable TENANT : ResourceType.

Lemma filter_all {A : Type} (P : A → Prop) `{!∀ x, Decision (P x)} (l : list A) :
  (∀ x, x ∈ l → P x) → filter P l = l.
Proof.
  induction l as [|x l IH]; [done|]. intros HP.
  rewrite filter_cons_True by (apply HP, list_elem_of_here).
  f_equal. apply IH. intros y Hy. by apply HP, list_elem_of_further.
Qed.

Lemma filter_none {A : Type} (P : A → Prop) `{!∀ x, Decision (P x)} (l : list A) :
  (∀ x, x ∈ l → ¬ P x) → filter P l = [].
Proof.
  induction l as [|x l IH]; [done|]. intros HP.
  rewrite filter_cons_False by (apply HP, list_elem_of_here).
  apply IH. intros y Hy. by apply HP, list_elem_of_further.
Qed.

Lemma filter_remove_one (before after : list ResourceType) :
  NoDup (before ++ TENANT :: after) →
  filter (λ type, type ≠ TENANT) (before ++ TENANT :: after) = before ++ after.
Proof.
  intros Hnd. apply NoDup_app in Hnd as (_ & Hbefore & Hafter).
  apply NoDup_cons in Hafter as [Hafter _].
  rewrite filter_app, filter_cons_False by (intros ?; done).
  f_equal.
  - apply filter_all. intros x Hx ->.
    apply (Hbefore TENANT Hx), list_elem_of_here.
  - apply filter_all. intros x Hx ->. done.
Qed.

Lemma filter_remove_none :
  TENANT ∉ ResourceType_values →
  filter (λ type, type ≠ TENANT) ResourceType_values = ResourceType_values.
Proof.
  intros Hnot. apply filter_all. intros x Hx ->. done.
Qed.

Lemma NoDup_occurs_once (l : list ResourceType) (x : ResourceType) :
  NoDup l → x ∈ l → length (filter (λ y, y = x) l) = 1%nat.
Proof.
  intros Hnd. revert x. induction Hnd as [|y l Hy Hnd IH]; intros x.
  { by intros ?%not_elem_of_nil. }
  intros [->|Hx]%elem_of_cons.
  - rewrite filter_cons_True by done. simpl. f_equal.
    rewrite (filter_none (λ z, z = y) l); [done|].
    intros z Hz ->. done.
  - rewrite filter_cons_False; [by apply IH|]. intros ->. done.
Qed.

Lemma authorizationTabs_NoDup (isTenantsApiEnabled : bool) :
  NoDup ResourceType_values →
  NoDup (Stateful.authorizationTabs ResourceType_values TENANT isTenantsApiEnabled).
Proof.
  intros Hnd. unfold Stateful.authorizationTabs.
  destruct isTenantsApiEnabled; simpl; [done|]. by apply NoDup_filter.
Qed.

Lemma authorizationTabs_elem (isTenantsApiEnabled : bool) (x : ResourceType) :
  x ∈ Stateful.authorizationTabs ResourceType_values TENANT isTenantsApiEnabled
  ↔ x ∈ ResourceType_values ∧ (isTenantsApiEnabled = false → x ≠ TENANT).
Proof.
  unfold Stateful.authorizationTabs. destruct isTenantsApiEnabled; simpl.
  - split; [by intros ?|by intros [? _]].
  - rewrite list_elem_of_filter. split; intros [? ?]; split; auto.
Qed.
End TabSet.

(** C2. With distinct enumeration values, the tab set of both versions is
    the whole enumeration, in enumeration order, when the tenant flag is
    enabled, and the enumeration with exactly the tenant value taken out
    when the flag is disabled; in both cases every remaining enumeration
    member occurs exactly once. *)
Theorem C2_tab_set (ResourceType_values : list ResourceType) (TENANT : ResourceType)
    (isTenantsApiEnabled : bool) :
  NoDup ResourceType_values →
  let tabs := Stateful.authorizationTabs ResourceType_values TENANT isTenantsApiEnabled in
  Stateless.authorizationTabs ResourceType_values TENANT isTenantsApiEnabled = tabs
  ∧ (isTenantsApiEnabled = true → tabs = ResourceType_values)
  ∧ (isTenantsApiEnabled = false →
       (TENANT ∉ tabs)
       ∧ (TENANT ∉ ResourceType_values → tabs = ResourceType_values)
       ∧ ∀ before after,
           ResourceType_values = before ++ TENANT :: after → tabs = before ++ after)
  ∧ (∀ x, x ∈ ResourceType_values → (isTenantsApiEnabled = false → x ≠ TENANT) →
       length (filter (λ y, y = x) tabs) = 1%nat).
Proof.
  intros Hnd tabs.
  split; [apply stateless_tabs|].
  split; [by intros ->|].
  split.
  - intros ->. split; [|split].
    + intros [_ Hne]%authorizationTabs_elem. by apply Hne.
    + apply filter_remove_none.
    + intros before after Hvalues. subst ResourceType_values.
      by apply filter_remove_one.
  - intros x Hx Hne. apply NoDup_occurs_once.
    + by apply authorizationTabs_NoDup.
    + by apply authorizationTabs_elem.
Qed.

Lemma C2_tab_set_witness :
  let tabs := Stateful.authorizationTabs sample_values sample_tenant false in
  Stateless.authorizationTabs sample_values sample_tenant false = tabs
  ∧ (false = true → tabs = sample_values)
  ∧ (false = false →
       (sample_tenant ∉ tabs)
       ∧ (sample_tenant ∉ sample_values → tabs = sample_values)
       ∧ ∀ before after,
           sample_values = before ++ sample_tenant :: after → tabs = before ++ after)
  ∧ (∀ x, x ∈ sample_values → (false = false → x ≠ sample_tenant) →
       length (filter (λ y, y = x) tabs) = 1%nat).
Proof.
  apply (C2_tab_set sample_values sample_tenant false).
  apply (bool_decide_unpack _). vm_compute. exact I.
Defined.

Example tabs_without_tenant :
  Stateful.authorizationTabs sample_values sample_tenant false = ["authorization"; "user"].
Proof. reflexivity. Qed.

Example tabs_with_tenant :
  Stateless.authorizationTabs sample_values sample_tenant true
  = ["authorization"; "tenant"; "user"].
Proof. reflexivity. Qed.

(** ** The presentation transform *)

Section Heap.
Implicit Types (h : gmap loc cell) (v : val) (l : loc).

Lemma bind_run {A B : Type} (m : M A) (f : A → M B) h :
  (m ≫= f) h = match m h with Some (a, h') => f a h' | None => None end.
Proof. reflexivity. Qed.

Lemma fresh_lookup h : h !! fresh (dom h) = None.
Proof. apply not_elem_of_dom, is_fresh. Qed.

Lemma alloc_run (c : cell) h :
  alloc c h = Some (VRef (fresh (dom h)), <[fresh (dom h) := c]> h).
Proof. reflexivity. Qed.

Lemma load_obj_run h l (props : gmap string val) :
  h !! l = Some (Obj props) → load_obj (VRef l) h = Some (props, h).
Proof. intros Hl. unfold load_obj. by rewrite Hl. Qed.

Lemma load_arr_run h l (elems : list val) :
  h !! l = Some (Arr elems) → load_arr (VRef l) h = Some (elems, h).
Proof. intros Hl. unfold load_arr. by rewrite Hl. Qed.

Lemma array_spread_run h l (elems : list val) :
  h !! l = Some (Arr elems) →
  array_spread (VRef l) h = Some (VRef (fresh (dom h)), <[fresh (dom h) := Arr elems]> h).
Proof.
  intros Hl. unfold array_spread. by rewrite bind_run, (load_arr_run _ _ _ Hl).
Qed.

(** [sort] overwrites the cell it is called on. *)
Lemma array_sort_run h l (elems : list val) (strs : list string) :
  h !! l = Some (Arr elems) → mapM as_str elems = Some strs →
  array_sort (VRef l) h
  = Some (VRef l, <[l := Arr (VStr <$> merge_sort String.le strs)]> h).
Proof.
  intros Hl Hstrs. unfold array_sort.
  by rewrite bind_run, (load_arr_run _ _ _ Hl), Hstrs.
Qed.

Lemma alloc_extends (c : cell) h : h ⊆ <[fresh (dom h) := c]> h.
Proof. apply insert_subseteq, fresh_lookup. Qed.

Lemma mapM_as_str_VStr (strs : list string) : mapM as_str (VStr <$> strs) = Some strs.
Proof.
  apply mapM_Some. induction strs as [|s strs IH]; simpl; by constructor.
Qed.

Lemma mapM_as_str_inv (elems : list val) (strs : list string) :
  mapM as_str elems = Some strs → elems = VStr <$> strs.
Proof.
  intros H%mapM_Some. induction H as [|x s elems strs Hx _ IH]; [done|].
  simpl. f_equal; [|done]. by destruct x; simplify_eq/=.
Qed.

(** What was read from a heap is read from every extension of it. *)
Lemma read_strings_weaken h h' v strs :
  h ⊆ h' → read_strings h v = Some strs → read_strings h' v = Some strs.
Proof.
  intros Hsub. unfold read_strings. destruct v as [| | | | |l]; try done.
  destruct (h !! l) as [c|] eqn:Hl; [|done].
  by rewrite (lookup_weaken _ _ _ _ Hl Hsub).
Qed.

Lemma read_item_weaken h h' v i :
  h ⊆ h' → read_item h v = Some i → read_item h' v = Some i.
Proof.
  intros Hsub. unfold read_item. destruct v as [| | | | |l]; try done.
  destruct (h !! l) as [[props|elems]|] eqn:Hl; try done.
  rewrite (lookup_weaken _ _ _ _ Hl Hsub).
  destruct (read_strings h (get_prop props "permissionTypes")) as [strs|] eqn:Hs; [|done].
  by rewrite (read_strings_weaken _ _ _ _ Hsub Hs).
Qed.

Lemma read_items_list_weaken h h' (elems : list val) (items : list ItemView) :
  h ⊆ h' → mapM (read_item h) elems = Some items → mapM (read_item h') elems = Some items.
Proof.
  intros Hsub H%mapM_Some. apply mapM_Some.
  eapply Forall2_impl; [done|]. intros x i. by apply read_item_weaken.
Qed.

Lemma read_page_weaken h h' v p :
  h ⊆ h' → read_page h v = Some p → read_page h' v = Some p.
Proof.
  intros Hsub. unfold read_page. destruct v as [| | | | |l]; try done.
  destruct (h !! l) as [[props|elems]|] eqn:Hl; try done.
  rewrite (lookup_weaken _ _ _ _ Hl Hsub).
  unfold read_items. destruct (get_prop props "items") as [| | | | |a]; try done.
  destruct (h !! a) as [[props'|elems]|] eqn:Ha; try done.
  rewrite (lookup_weaken _ _ _ _ Ha Hsub).
  destruct (mapM (read_item h) elems) as [items|] eqn:Hitems; [|done].
  by rewrite (read_items_list_weaken _ _ _ _ Hsub Hitems).
Qed.

(** The run of the transform on one record. *)
Lemma sortItem_run h v (i : ItemView) :
  read_item h v = Some i →
  ∃ l h', sortItem v h = Some (VRef l, h')
    ∧ h !! l = None ∧ h ⊆ h'
    ∧ read_item h' (VRef l) = Some (sorted_item i).
Proof.
  unfold read_item. destruct v as [| | | | |lv]; try done.
  destruct (h !! lv) as [[props|?]|] eqn:Hlv; try done.
  unfold read_strings.
  destruct (get_prop props "permissionTypes") as [| | | | |a] eqn:Hpt; try done.
  destruct (h !! a) as [[?|elems]|] eqn:Ha; try done. simpl.
  destruct (mapM as_str elems) as [strs|] eqn:Hstrs; [|done].
  intros [= <-]. simpl.
  set (l1 := fresh (dom h)).
  set (h2 := <[l1 := Arr (VStr <$> merge_sort String.le strs)]> h).
  set (l2 := fresh (dom h2)).
  set (props' := <["permissionTypes" := VRef l1]> props).
  assert (h !! l1 = None) as Hl1 by apply fresh_lookup.
  assert (h2 !! l2 = None) as Hl2 by apply fresh_lookup.
  assert (l1 ≠ l2) as Hne.
  { intros Heq. rewrite <- Heq in Hl2. unfold h2 in Hl2.
    by rewrite lookup_insert_eq in Hl2. }
  exists l2, (<[l2 := Obj props']> h2).
  assert (sortItem (VRef lv) h = Some (VRef l2, <[l2 := Obj props']> h2)) as ->.
  { unfold sortItem.
    rewrite bind_run, (load_obj_run _ _ _ Hlv), Hpt.
    rewrite bind_run, (array_spread_run _ _ _ Ha). fold l1.
    rewrite bind_run, (array_sort_run _ l1 elems strs);
      [|apply lookup_insert_eq|done].
    rewrite insert_insert_eq. fold h2. by rewrite alloc_run. }
  assert (h ⊆ h2) as Hsub by by apply insert_subseteq.
  split; [done|]. split.
  { destruct (h !! l2) eqn:Hl; [|done].
    by rewrite (lookup_weaken _ _ _ _ Hl Hsub) in Hl2. }
  split.
  { etrans; [done|]. by apply insert_subseteq. }
  unfold read_item. rewrite lookup_insert_eq. unfold props', get_prop.
  rewrite lookup_insert_eq. simpl.
  rewrite lookup_insert_ne by done. unfold h2 at 1. rewrite lookup_insert_eq.
  rewrite mapM_as_str_VStr. simpl. unfold sorted_item. simpl.
  by rewrite delete_insert_eq.
Qed.
(** The run of [items.map(...)] over the records of a page. *)
Lemma map_elems_run (elems : list val) : ∀ h (items : list ItemView),
  mapM (read_item h) elems = Some items →
  ∃ outs h', map_elems sortItem elems h = Some (outs, h')
    ∧ h ⊆ h'
    ∧ mapM (read_item h') outs = Some (sorted_item <$> items)
    ∧ Forall (λ o, ∃ l, o = VRef l ∧ h !! l = None) outs.
Proof.
  induction elems as [|x rest IH]; intros h items Hread.
  - apply mapM_Some in Hread. inversion Hread; subst.
    exists [], h. split; [done|]. split; [done|]. split; [done|]. constructor.
  - apply mapM_Some in Hread. inversion Hread as [|? i ? items' Hx Hrest]; subst.
    apply mapM_Some in Hrest.
    destruct (sortItem_run h x i Hx) as (l & h1 & Hrun & Hl & Hsub1 & Hout).
    destruct (IH h1 items') as (outs & h2 & Hruns & Hsub2 & Houts & Hfresh).
    { by eapply read_items_list_weaken. }
    exists (VRef l :: outs), h2. split; [|split; [|split]].
    + simpl. rewrite bind_run, Hrun, bind_run, Hruns. done.
    + by etrans.
    + apply mapM_Some. simpl. constructor.
      * by eapply read_item_weaken.
      * by apply mapM_Some.
    + constructor; [by exists l|].
      eapply Forall_impl; [done|]. intros o (l' & -> & Hl').
      exists l'. split; [done|]. by eapply lookup_weaken_None.
Qed.

(** The run of the transform on a page. *)
Lemma transform_run h v (p : PageView) :
  read_page h v = Some p →
  ∃ l h', sortPermissionTypesAlphabetically v h = Some (VRef l, h')
    ∧ h !! l = None ∧ h ⊆ h'
    ∧ read_page h' (VRef l) = Some (sorted_page p).
Proof.
  unfold read_page. destruct v as [| | | | |lv]; try done.
  destruct (h !! lv) as [[props|?]|] eqn:Hlv; try done.
  destruct (read_items h (get_prop props "items")) as [items|] eqn:Hitems; [|done].
  intros [= <-]. unfold sortPermissionTypesAlphabetically. simpl.
  rewrite bind_run, (load_obj_run _ _ _ Hlv).
  unfold read_items in Hitems.
  destruct (get_prop props "items") as [| | | | |a] eqn:Hprop; try done.
  - (* items: undefined *)
    injection Hitems as <-. rewrite bind_run. simpl. rewrite alloc_run.
    eexists _, _. split; [done|]. split; [apply fresh_lookup|].
    split; [apply alloc_extends|].
    unfold read_page. rewrite lookup_insert_eq. unfold get_prop.
    rewrite lookup_insert_eq. simpl. by rewrite delete_insert_eq.
  - (* items: null *)
    injection Hitems as <-. rewrite bind_run. simpl. rewrite alloc_run.
    eexists _, _. split; [done|]. split; [apply fresh_lookup|].
    split; [apply alloc_extends|].
    unfold read_page. rewrite lookup_insert_eq. unfold get_prop.
    rewrite lookup_insert_eq. simpl. by rewrite delete_insert_eq.
  - (* items: an array of records *)
    destruct (h !! a) as [[?|elems]|] eqn:Ha; try done.
    destruct (mapM (read_item h) elems) as [views|] eqn:Hviews; [|done].
    injection Hitems as <-.
    destruct (map_elems_run elems h views Hviews)
      as (outs & h1 & Hruns & Hsub1 & Houts & _).
    set (la := fresh (dom h1)).
    set (h2 := <[la := Arr outs]> h1).
    set (lp := fresh (dom h2)).
    assert (h1 !! la = None) as Hla by apply fresh_lookup.
    assert (h2 !! lp = None) as Hlp by apply fresh_lookup.
    assert (la ≠ lp) as Hne.
    { intros Heq. rewrite <- Heq in Hlp. unfold h2 in Hlp.
      by rewrite lookup_insert_eq in Hlp. }
    assert (h ⊆ h2) as Hsub2 by (etrans; [done|]; by apply insert_subseteq).
    exists lp, (<[lp := Obj (<["items" := VRef la]> props)]> h2).
    split; [|split; [|split]].
    + rewrite bind_run. unfold array_map.
      rewrite bind_run, (load_arr_run _ _ _ Ha), bind_run, Hruns, alloc_run.
      fold la h2. by rewrite alloc_run.
    + by eapply lookup_weaken_None.
    + etrans; [done|]. by apply insert_subseteq.
    + unfold read_page. rewrite lookup_insert_eq. unfold get_prop.
      rewrite lookup_insert_eq. simpl.
      rewrite lookup_insert_ne by done. unfold h2 at 1. rewrite lookup_insert_eq.
      rewrite (read_items_list_weaken h1 _ outs (sorted_item <$> views)); [..|done].
      * simpl. unfold sorted_page. simpl. by rewrite delete_insert_eq.
      * etrans; [|by apply insert_subseteq]. by apply insert_subseteq.
Qed.

Lemma sortItem_refs (h : gmap loc cell) (v : val) (i : ItemView) :
  read_item h v = Some i →
  ∃ l a h', sortItem v h = Some (VRef l, h')
    ∧ h !! l = None ∧ h !! a = None ∧ h ⊆ h'
    ∧ ∀ h'', h' ⊆ h'' → item_refs h'' (VRef l) = [l; a].
Proof.
  unfold read_item. destruct v as [| | | | |lv]; try done.
  destruct (h !! lv) as [[props|?]|] eqn:Hlv; try done.
  unfold read_strings.
  destruct (get_prop props "permissionTypes") as [| | | | |a] eqn:Hpt; try done.
  destruct (h !! a) as [[?|elems]|] eqn:Ha; try done. simpl.
  destruct (mapM as_str elems) as [strs|] eqn:Hstrs; [|done].
  intros _.
  set (l1 := fresh (dom h)).
  set (h2 := <[l1 := Arr (VStr <$> merge_sort String.le strs)]> h).
  set (l2 := fresh (dom h2)).
  set (props' := <["permissionTypes" := VRef l1]> props).
  assert (h !! l1 = None) as Hl1 by apply fresh_lookup.
  assert (h2 !! l2 = None) as Hl2 by apply fresh_lookup.
  assert (h ⊆ h2) as Hsub by by apply insert_subseteq.
  exists l2, l1, (<[l2 := Obj props']> h2).
  split; [|split; [|split; [done|split]]].
  - unfold sortItem.
    rewrite bind_run, (load_obj_run _ _ _ Hlv), Hpt.
    rewrite bind_run, (array_spread_run _ _ _ Ha). fold l1.
    rewrite bind_run, (array_sort_run _ l1 elems strs);
      [|apply lookup_insert_eq|done].
    rewrite insert_insert_eq. fold h2. by rewrite alloc_run.
  - by eapply lookup_weaken_None.
  - etrans; [done|]. by apply insert_subseteq.
  - intros h'' Hsub''. unfold item_refs.
    rewrite (lookup_weaken _ _ l2 (Obj props') (lookup_insert_eq _ _ _) Hsub'').
    unfold props', get_prop. by rewrite lookup_insert_eq.
Qed.

Lemma map_elems_refs (elems : list val) : ∀ (h : gmap loc cell) (items : list ItemView),
  mapM (read_item h) elems = Some items →
  ∃ outs h', map_elems sortItem elems h = Some (outs, h')
    ∧ h ⊆ h'
    ∧ Forall (λ l, h !! l = None) (outs ≫= item_refs h')
    ∧ length (outs ≫= item_refs h') = (2 * length elems)%nat
    ∧ ∀ h'', h' ⊆ h'' → outs ≫= item_refs h'' = outs ≫= item_refs h'.
Proof.
  induction elems as [|x rest IH]; intros h items Hread.
  - exists [], h. split; [done|]. split; [done|]. split; [constructor|]. by split.
  - apply mapM_Some in Hread. inversion Hread as [|? i ? items' Hx Hrest]; subst.
    apply mapM_Some in Hrest.
    destruct (sortItem_refs h x i Hx) as (l & a & h1 & Hrun & Hl & Ha & Hsub1 & Hrefs).
    destruct (IH h1 items') as (outs & h2 & Hruns & Hsub2 & Hfresh & Hlen & Hstable).
    { by eapply read_items_list_weaken. }
    exists (VRef l :: outs), h2.
    assert (∀ h'', h2 ⊆ h'' →
              (VRef l :: outs) ≫= item_refs h'' = [l; a] ++ (outs ≫= item_refs h2))
      as Hall.
    { intros h'' Hsub''. cbn [mbind list_bind]. 
      rewrite Hrefs by (by etrans).
      f_equal. by apply Hstable. }
    split; [|split; [by etrans|split; [|split]]].
    + simpl. by rewrite bind_run, Hrun, bind_run, Hruns.
    + rewrite (Hall h2) by done. simpl.
      constructor; [done|]. constructor; [done|].
      eapply Forall_impl; [done|]. intros l' Hl'. simpl in Hl'.
      by apply (lookup_weaken_None h h1).
    + rewrite (Hall h2) by done. rewrite length_app, Hlen. simpl. lia.
    + intros h'' Hsub''. by rewrite (Hall h''), (Hall h2).
Qed.

(** The cells of the result of the transform are new. *)
Lemma transform_run_refs (h : gmap loc cell) (authorizationData : val) (page : PageView) :
  read_page h authorizationData = Some page →
  ∃ out h',
    sortPermissionTypesAlphabetically authorizationData h = Some (out, h')
    ∧ Forall (λ l, h !! l = None) (page_refs h' out)
    ∧ length (page_refs h' out)
      = match page_items page with
        | Some items => (2 + 2 * length items)%nat
        | None => 1%nat
        end.
Proof.
  unfold read_page. destruct authorizationData as [| | | | |lv]; try done.
  destruct (h !! lv) as [[props|?]|] eqn:Hlv; try done.
  destruct (read_items h (get_prop props "items")) as [items|] eqn:Hitems; [|done].
  intros [= <-]. unfold sortPermissionTypesAlphabetically. simpl.
  rewrite bind_run, (load_obj_run _ _ _ Hlv).
  unfold read_items in Hitems.
  destruct (get_prop props "items") as [| | | | |a] eqn:Hprop; try done.
  - injection Hitems as <-. rewrite bind_run. simpl. rewrite alloc_run.
    eexists _, _. split; [done|]. unfold page_refs.
    rewrite lookup_insert_eq. unfold get_prop. rewrite lookup_insert_eq. simpl.
    split; [|done]. repeat constructor. apply fresh_lookup.
  - injection Hitems as <-. rewrite bind_run. simpl. rewrite alloc_run.
    eexists _, _. split; [done|]. unfold page_refs.
    rewrite lookup_insert_eq. unfold get_prop. rewrite lookup_insert_eq. simpl.
    split; [|done]. repeat constructor. apply fresh_lookup.
  - destruct (h !! a) as [[?|elems]|] eqn:Ha; try done.
    destruct (mapM (read_item h) elems) as [views|] eqn:Hviews; [|done].
    injection Hitems as <-.
    destruct (map_elems_refs elems h views Hviews)
      as (outs & h1 & Hruns & Hsub1 & Hfresh & Hlen & Hstable).
    set (la := fresh (dom h1)).
    set (h2 := <[la := Arr outs]> h1).
    set (lp := fresh (dom h2)).
    set (h3 := <[lp := Obj (<["items" := VRef la]> props)]> h2).
    assert (h1 !! la = None) as Hla by apply fresh_lookup.
    assert (h2 !! lp = None) as Hlp by apply fresh_lookup.
    assert (h1 ⊆ h2) as Hsub2 by by apply insert_subseteq.
    assert (h2 ⊆ h3) as Hsub3 by by apply insert_subseteq.
    assert (la ≠ lp) as Hne.
    { intros Heq. rewrite <- Heq in Hlp. unfold h2 in Hlp.
      by rewrite lookup_insert_eq in Hlp. }
    exists (VRef lp), h3.
    assert (page_refs h3 (VRef lp) = lp :: la :: (outs ≫= item_refs h1)) as ->.
    { unfold page_refs, h3. rewrite lookup_insert_eq. unfold get_prop.
      rewrite lookup_insert_eq. simpl. rewrite lookup_insert_ne by done.
      unfold h2 at 1. rewrite lookup_insert_eq. do 2 f_equal.
      apply Hstable. by etrans. }
    split; [|split].
    + rewrite bind_run. unfold array_map.
      rewrite bind_run, (load_arr_run _ _ _ Ha), bind_run, Hruns, alloc_run.
      fold la h2. by rewrite alloc_run.
    + constructor; [|constructor; [|done]].
      * eapply lookup_weaken_None; [exact Hlp|]. by etrans.
      * by eapply lookup_weaken_None.
    + simpl. rewrite Hlen. apply length_mapM in Hviews. lia.
Qed.

Lemma transform_absent h v :
  v = VNull ∨ v = VUndefined → sortPermissionTypesAlphabetically v h = Some (v, h).
Proof. by intros [-> | ->]. Qed.

(** The sorted arrangement of an array of strings is unique: any sorting
    algorithm returns what [merge_sort] returns. *)
Lemma sorted_arrangement_unique (strs sorted : list string) :
  StronglySorted String.le sorted → sorted ≡ₚ strs →
  sorted = merge_sort String.le strs.
Proof.
  intros Hsorted Hperm.
  apply (StronglySorted_unique String.le); [done| |].
  - apply StronglySorted_merge_sort; apply _.
  - by rewrite merge_sort_Permutation.
Qed.

Lemma sorted_item_spec (i : ItemView) :
  item_fields (sorted_item i) = item_fields i
  ∧ StronglySorted String.le (item_permissionTypes (sorted_item i))
  ∧ item_permissionTypes (sorted_item i) ≡ₚ item_permissionTypes i.
Proof.
  split; [done|]. split.
  - apply StronglySorted_merge_sort; apply _.
  - apply merge_sort_Permutation.
Qed.
End Heap.

Example sample_page_view : read_page sample_heap sample_page = Some sample_view.
Proof. vm_compute. reflexivity. Qed.

Example sample_page_transformed :
  transformed_view sample_heap sample_page = Some sample_view_sorted.
Proof. vm_compute. reflexivity. Qed.

(** Sorting the source array itself would have changed the source: the
    spread in the transform is what keeps it intact. *)
Example sort_in_place_changes_the_array :
  snd <$> array_sort (VRef 1%positive) sample_heap
  = Some (<[1%positive := Arr [VStr "CREATE"; VStr "READ"; VStr "WRITE"]]> sample_heap).
Proof. vm_compute. reflexivity. Qed.

(** C3. For every present data page, the presentation transform returns a
    page whose records carry, in place of their permission types, a sorted
    copy of them: a sorted arrangement of the same permission types, held
    in cells that did not exist before the call (the page, its items array,
    every record and every permission array of the result are new), while
    the source page reads after the call as it did before. The page is
    otherwise the same (on the sample page, WRITE, READ, CREATE becomes
    CREATE, READ, WRITE); for absent data ([null] or [undefined]) the
    transform returns its input. *)
Theorem C3_transform_sorts_permission_types
    (h : gmap loc cell) (authorizationData : val) (page : PageView) :
  read_page h authorizationData = Some page →
  (∃ out h' page',
      sortPermissionTypesAlphabetically authorizationData h = Some (out, h')
      ∧ read_page h' out = Some page'
      ∧ page_fields page' = page_fields page
      ∧ match page_items page, page_items page' with
        | Some items, Some items' =>
            Forall2 (λ i i',
                item_fields i' = item_fields i
                ∧ StronglySorted String.le (item_permissionTypes i')
                ∧ item_permissionTypes i' ≡ₚ item_permissionTypes i) items items'
        | None, None => True
        | _, _ => False
        end
      ∧ Forall (λ l, h !! l = None) (page_refs h' out)
      ∧ length (page_refs h' out)
        = match page_items page with
          | Some items => (2 + 2 * length items)%nat
          | None => 1%nat
          end
      ∧ read_page h' authorizationData = Some page)
  ∧ transformed_view sample_heap sample_page = Some sample_view_sorted
  ∧ sortPermissionTypesAlphabetically VNull h = Some (VNull, h)
  ∧ sortPermissionTypesAlphabetically VUndefined h = Some (VUndefined, h).
Proof.
  intros Hpage. split; [|split; [by vm_compute|by split]].
  destruct (transform_run h authorizationData page Hpage)
    as (l & h' & Hrun & _ & Hsub & Hout).
  destruct (transform_run_refs h authorizationData page Hpage)
    as (out & h'' & Hrun' & Hfresh & Hlen).
  rewrite Hrun in Hrun'. injection Hrun' as <- <-.
  exists (VRef l), h', (sorted_page page).
  split; [done|]. split; [done|]. split; [done|].
  split; [|split; [done|split; [done|by eapply read_page_weaken]]].
  simpl. destruct (page_items page) as [items|]; simpl; [|done].
  apply Forall2_fmap_r, Forall_Forall2_diag, Forall_forall.
  intros i _. apply sorted_item_spec.
Qed.

Lemma C3_transform_sorts_permission_types_witness :
  read_page sample_heap sample_page = Some sample_view
  ∧ (∃ out h' page',
      sortPermissionTypesAlphabetically sample_page sample_heap = Some (out, h')
      ∧ read_page h' out = Some page'
      ∧ page_fields page' = page_fields sample_view
      ∧ match page_items sample_view, page_items page' with
        | Some items, Some items' =>
            Forall2 (λ i i',
                item_fields i' = item_fields i
                ∧ StronglySorted String.le (item_permissionTypes i')
                ∧ item_permissionTypes i' ≡ₚ item_permissionTypes i) items items'
        | None, None => True
        | _, _ => False
        end
      ∧ Forall (λ l, sample_heap !! l = None) (page_refs h' out)
      ∧ length (page_refs h' out)
        = match page_items sample_view with
          | Some items => (2 + 2 * length items)%nat
          | None => 1%nat
          end
      ∧ read_page h' sample_page = Some sample_view)
  ∧ transformed_view sample_heap sample_page = Some sample_view_sorted
  ∧ sortPermissionTypesAlphabetically VNull sample_heap = Some (VNull, sample_heap)
  ∧ sortPermissionTypesAlphabetically VUndefined sample_heap
    = Some (VUndefined, sample_heap).
Proof.
  split; [vm_compute; reflexivity|].
  apply (C3_transform_sorts_permission_types sample_heap sample_page sample_view).
  vm_compute. reflexivity.
Defined.

(** C4. The presentation transform does not mutate its input: after it has
    run on a page, every cell that existed before (the source page, its
    items array, every source record and every source permission-type
    array among them) holds what it held, so the source page reads as
    before; the result is a new object; and in the result every property of
    the page other than [items], and every property of each record other
    than [permissionTypes], equals the corresponding source property. *)
Theorem C4_transform_does_not_mutate
    (h : gmap loc cell) (authorizationData : val) (page : PageView) :
  read_page h authorizationData = Some page →
  ∃ out h' page',
    sortPermissionTypesAlphabetically authorizationData h = Some (VRef out, h')
    ∧ (∀ l c, h !! l = Some c → h' !! l = Some c)
    ∧ read_page h' authorizationData = Some page
    ∧ h !! out = None
    ∧ read_page h' (VRef out) = Some page'
    ∧ page_fields page' = page_fields page
    ∧ (λ items : list ItemView, item_fields <$> items) <$> page_items page'
      = (λ items : list ItemView, item_fields <$> items) <$> page_items page.
Proof.
  intros Hpage.
  destruct (transform_run h authorizationData page Hpage)
    as (l & h' & Hrun & Hfresh & Hsub & Hout).
  exists l, h', (sorted_page page).
  split; [done|]. split.
  { intros l' c Hl'. by eapply lookup_weaken. }
  split; [by eapply read_page_weaken|].
  split; [done|]. split; [done|]. split; [done|].
  simpl. destruct (page_items page) as [items|]; simpl; [|done].
  f_equal. rewrite <- list_fmap_compose. by apply list_fmap_ext.
Qed.

Lemma C4_transform_does_not_mutate_witness :
  read_page sample_heap sample_page = Some sample_view
  ∧ ∃ out h' page',
    sortPermissionTypesAlphabetically sample_page sample_heap = Some (VRef out, h')
    ∧ (∀ l c, sample_heap !! l = Some c → h' !! l = Some c)
    ∧ read_page h' sample_page = Some sample_view
    ∧ sample_heap !! out = None
    ∧ read_page h' (VRef out) = Some page'
    ∧ page_fields page' = page_fields sample_view
    ∧ (λ items : list ItemView, item_fields <$> items) <$> page_items page'
      = (λ items : list ItemView, item_fields <$> items) <$> page_items sample_view.
Proof.
  split; [vm_compute; reflexivity|].
  apply (C4_transform_does_not_mutate sample_heap sample_page sample_view).
  vm_compute. reflexivity.
Defined.

(** ** The error notification *)

Lemma count_calls_clicks (k : nat) (c : Cmd) : count_calls c (clicks k [c]) = k.
Proof.
  unfold count_calls, clicks. induction k as [|k IH]; [done|].
  simpl. rewrite filter_cons_True by done. simpl. by f_equal.
Qed.

(** C5. In both versions the error notification with its retry button is
    rendered if and only if [loading] is false and [success] is false, and
    the click handler of the button is the collaborator's [reload] and
    nothing else, so that [k] clicks call [reload] [k] times. *)
Theorem C5_error_notification
    (ResourceType_values : list ResourceType) (TENANT : ResourceType)
    (isTenantsApiEnabled : bool) (t : string → string)
    (r : Stateful.Render) (searchParams : URLSearchParams) (loading success : bool) :
  let shown := Stateful.errorNotification
      (Stateful.render ResourceType_values TENANT isTenantsApiEnabled t r loading success) in
  let shown' := Stateless.errorNotification
      (Stateless.render ResourceType_values TENANT isTenantsApiEnabled t
         searchParams loading success) in
  (is_Some shown ↔ loading = false ∧ success = false)
  ∧ (is_Some shown' ↔ loading = false ∧ success = false)
  ∧ (∀ n, shown = Some n →
       Stateful.onClick (Stateful.actionButton n) = [reload]
       ∧ ∀ k, count_calls reload (clicks k (Stateful.onClick (Stateful.actionButton n))) = k)
  ∧ (∀ n, shown' = Some n →
       Stateless.onClick (Stateless.actionButton n) = [reload]
       ∧ ∀ k, count_calls reload
                (clicks k (Stateless.onClick (Stateless.actionButton n))) = k).
Proof.
  simpl. destruct loading, success; simpl.
  all: split; [split; [intros [? [=]] | intros [[=] [=]]]; by eauto|].
  all: split; [split; [intros [? [=]] | intros [[=] [=]]]; by eauto|].
  all: split; intros n [= <-]; simpl.
  all: split; [done|intros k; apply count_calls_clicks].
Qed.

(** ** Tab selection *)

Lemma array_get_is_tab (arr : list ResourceType) (i : Z) :
  is_tab arr (array_get arr i) ↔ 0 ≤ i < Z.of_nat (length arr).
Proof.
  split.
  - intros (x & Hget & _). destruct (decide (0 ≤ i < Z.of_nat (length arr))); [done|].
    rewrite array_get_out_of_range in Hget by lia. done.
  - intros [Hlo Hhi].
    destruct (lookup_lt_is_Some_2 arr (Z.to_nat i)) as [x Hx]; [lia|].
    exists x. split; [by apply array_get_in_range|].
    apply list_elem_of_lookup. eauto.
Qed.

(** C10, as the code has it. The tab-selection handler of both versions
    indexes the tab set without a bounds check: for an index within the tab
    set it selects the resource type at that index, for an index outside
    the lookup yields [undefined], which the handler hands on all the same.
    In the stateful version the handler sets the state to what it looked
    up, so the active tab after a selection is a member of the tab set
    exactly when the index is valid. In the stateless version the handler
    writes the looked-up value, as text, to the URL (the text "undefined"
    for an index out of range), and the active tab is derived from the URL
    on the next render: it is the selected tab for a valid index, and a
    member of a non-empty tab set after any selection, the first tab when
    the index is out of range (unless "undefined" is itself a tab). *)
Theorem C10_handleTabChange_indexing
    (ResourceType_values : list ResourceType) (TENANT : ResourceType)
    (isTenantsApiEnabled : bool) (selectedIndex : Z)
    (w : Stateful.World) (w' : Stateless.World) :
  let tabs := Stateful.authorizationTabs ResourceType_values TENANT isTenantsApiEnabled in
  let newTab := array_get tabs selectedIndex in
  let selected :=
    Stateful.select_tab ResourceType_values TENANT isTenantsApiEnabled selectedIndex w in
  let selected' :=
    Stateless.select_tab ResourceType_values TENANT isTenantsApiEnabled selectedIndex w' in
  let activeTab' :=
    Stateless.activeTab ResourceType_values TENANT isTenantsApiEnabled
      (location (Stateless.router selected')) in
  Stateful.handleTabChange ResourceType_values TENANT isTenantsApiEnabled selectedIndex
    = [setActiveTab newTab]
  ∧ Stateless.handleTabChange ResourceType_values TENANT isTenantsApiEnabled selectedIndex
    = [resetPagination; setSearchParams [("resourceType", js_String newTab)] None]
  ∧ (∀ x, 0 ≤ selectedIndex → tabs !! Z.to_nat selectedIndex = Some x →
       newTab = Str x ∧ x ∈ tabs)
  ∧ (selectedIndex < 0 ∨ Z.of_nat (length tabs) ≤ selectedIndex → newTab = Undefined)
  ∧ Stateful.state selected = newTab
  ∧ (is_tab tabs (Stateful.state selected) ↔ 0 ≤ selectedIndex < Z.of_nat (length tabs))
  ∧ location (Stateless.router selected') = [("resourceType", js_String newTab)]
  ∧ (∀ x, 0 ≤ selectedIndex → tabs !! Z.to_nat selectedIndex = Some x → x ≠ "" →
       activeTab' = Str x)
  ∧ (tabs ≠ [] → is_tab tabs activeTab')
  ∧ (selectedIndex < 0 ∨ Z.of_nat (length tabs) ≤ selectedIndex →
       "undefined" ∉ tabs → activeTab' = array_get tabs 0).
Proof.
  intros tabs newTab selected selected' activeTab'.
  assert (location (Stateless.router selected') = [("resourceType", js_String newTab)])
    as Hloc by done.
  assert (activeTab'
          = Stateful.getActiveTabFromUrl ResourceType_values TENANT isTenantsApiEnabled
              [("resourceType", js_String newTab)]) as Hact.
  { unfold activeTab', Stateless.activeTab. by rewrite stateless_initialTab, Hloc. }
  split; [done|]. split; [done|].
  split.
  { intros x Hlo Hx. split; [by apply array_get_in_range|].
    apply list_elem_of_lookup. eauto. }
  split; [apply array_get_out_of_range|].
  split; [done|]. split; [apply array_get_is_tab|]. split; [done|].
  split; [|split].
  - intros x Hlo Hx Hne. rewrite Hact. unfold newTab.
    rewrite (array_get_in_range tabs selectedIndex x Hlo Hx).
    rewrite getActiveTabFromUrl_cases. simpl.
    rewrite bool_decide_true; [done|]. split; [done|].
    apply list_elem_of_lookup. eauto.
  - intros Htabs. rewrite Hact. by apply getActiveTabFromUrl_in_tabs.
  - intros Hrange Hnot. rewrite Hact. unfold newTab.
    rewrite (array_get_out_of_range tabs selectedIndex Hrange).
    apply getActiveTabFromUrl_default. by intros v [= <-].
Qed.

Lemma C10_handleTabChange_indexing_witness :
  let tabs := Stateful.authorizationTabs sample_values sample_tenant false in
  let w := Stateful.start sample_values sample_tenant false [("resourceType", "user")] [] in
  let w' := Stateless.start [("resourceType", "user")] [] in
  (array_get tabs 1 = Str "user" ∧ "user" ∈ tabs)
  ∧ array_get tabs 5 = Undefined
  ∧ is_tab tabs (Stateful.state (Stateful.select_tab sample_values sample_tenant false 1 w))
  ∧ Stateless.activeTab sample_values sample_tenant false
      (location (Stateless.router
         (Stateless.select_tab sample_values sample_tenant false 1 w'))) = Str "user"
  ∧ is_tab tabs
      (Stateless.activeTab sample_values sample_tenant false
         (location (Stateless.router
            (Stateless.select_tab sample_values sample_tenant false 5 w'))))
  ∧ Stateless.activeTab sample_values sample_tenant false
      (location (Stateless.router
         (Stateless.select_tab sample_values sample_tenant false 5 w')))
    = array_get tabs 0.
Proof.
  pose proof (C10_handleTabChange_indexing sample_values sample_tenant false 1
                (Stateful.start sample_values sample_tenant false
                   [("resourceType", "user")] [])
                (Stateless.start [("resourceType", "user")] []))
    as (_ & _ & Hin & _ & _ & Hmember & _ & Hvalid & _ & _).
  pose proof (C10_handleTabChange_indexing sample_values sample_tenant false 5
                (Stateful.start sample_values sample_tenant false
                   [("resourceType", "user")] [])
                (Stateless.start [("resourceType", "user")] []))
    as (_ & _ & _ & Hout & _ & _ & _ & _ & Hany & Hfirst).
  split; [apply Hin; [vm_compute; intros H; discriminate H|reflexivity]|].
  split; [apply Hout; right; vm_compute; intros H; discriminate H|].
  split.
  { apply Hmember. vm_compute. split; [intros H; discriminate H|reflexivity]. }
  split; [apply Hvalid; [vm_compute; intros H; discriminate H|reflexivity|discriminate]|].
  split; [apply Hany; vm_compute; discriminate|].
  apply Hfirst.
  - right. vm_compute. intros H. discriminate H.
  - apply (bool_decide_unpack _). vm_compute. exact I.
Defined.

(** C10 as stated fails for the stateless version: index 5 is not a valid
    index of the two tabs, and yet the active tab after that selection is
    a member of the tab set, the first tab. *)
Lemma C10_stateless_out_of_range_stays_member :
  let tabs := Stateless.authorizationTabs sample_values sample_tenant false in
  let w := Stateless.select_tab sample_values sample_tenant false 5
             (Stateless.start [("resourceType", "user")] []) in
  let activeTab := Stateless.activeTab sample_values sample_tenant false
                     (location (Stateless.router w)) in
  ¬ (0 ≤ 5 < Z.of_nat (length tabs))
  ∧ activeTab = Str "authorization"
  ∧ is_tab tabs activeTab.
Proof.
  simpl. split; [|split].
  - vm_compute. intros [_ H]. discriminate H.
  - reflexivity.
  - exists "authorization". split; [reflexivity|].
    apply (bool_decide_unpack _). vm_compute. exact I.
Qed.

Example select_second_tab :
  Stateful.handleTabChange sample_values sample_tenant true 1 = [setActiveTab (Str "tenant")].
Proof. reflexivity. Qed.

Example select_beyond_the_tabs :
  Stateful.handleTabChange sample_values sample_tenant false 2 = [setActiveTab Undefined]
  ∧ Stateless.handleTabChange sample_values sample_tenant false (-1)
    = [resetPagination; setSearchParams [("resourceType", "undefined")] None].
Proof. split; reflexivity. Qed.

(** ** Writes of the query string and the history *)

Lemma writes_app (t1 t2 : list Cmd) : writes (t1 ++ t2) = writes t1 ++ writes t2.
Proof. unfold writes. apply omap_app. Qed.

Lemma useEffect_cases {D : Type} `{EqDecision D} (body : list Cmd) (deps : D)
    (previous : option D) :
  useEffect body deps previous = body ∨ useEffect body deps previous = [].
Proof.
  unfold useEffect. destruct previous as [d|]; [|by left].
  case_decide; [by right|by left].
Qed.

Section Navigation.
Variable ResourceType_values : list ResourceType.
Variable TENANT : ResourceType.
Variable isTenantsApiEnabled : bool.

Lemma stateful_syncUrl_writes (r : Stateful.Render) :
  writes (Stateful.syncUrl r)
  = if strict_eq (get (Stateful.searchParams r) "resourceType") (Stateful.activeTab r)
    then []
    else [(set (Stateful.searchParams r) "resourceType" (js_String (Stateful.activeTab r)),
           Replace)].
Proof. unfold Stateful.syncUrl. by destruct (strict_eq _ _). Qed.

Lemma stateful_syncActiveTab_writes (r : Stateful.Render) :
  writes (Stateful.syncActiveTab ResourceType_values TENANT isTenantsApiEnabled r) = [].
Proof. unfold Stateful.syncActiveTab. by destruct (strict_eq _ _). Qed.

Lemma stateful_effects_replace (previous : option Stateful.Render) (r : Stateful.Render) :
  Forall (λ w, w.2 = Replace)
    (writes (Stateful.effects ResourceType_values TENANT isTenantsApiEnabled previous r)).
Proof.
  unfold Stateful.effects. rewrite !writes_app.
  repeat apply Forall_app_2.
  - destruct (useEffect_cases
      (Stateful.syncActiveTab ResourceType_values TENANT isTenantsApiEnabled r)
      (Stateful.searchParams r, Stateful.activeTab r)
      ((λ p, (Stateful.searchParams p, Stateful.activeTab p)) <$> previous)) as [-> | ->].
    + rewrite stateful_syncActiveTab_writes. constructor.
    + constructor.
  - destruct (useEffect_cases (Stateful.syncUrl r)
      (Stateful.activeTab r, Stateful.searchParams r)
      ((λ p, (Stateful.activeTab p, Stateful.searchParams p)) <$> previous)) as [-> | ->].
    + rewrite stateful_syncUrl_writes. destruct (strict_eq _ _); repeat constructor.
    + constructor.
  - destruct (useEffect_cases (Stateful.resetOnTabChange r) (Stateful.activeTab r)
      (Stateful.activeTab <$> previous)) as [-> | ->]; constructor.
Qed.

Lemma stateless_syncUrl_writes (searchParams : URLSearchParams) :
  let activeTab :=
    Stateless.activeTab ResourceType_values TENANT isTenantsApiEnabled searchParams in
  writes (Stateless.syncUrl ResourceType_values TENANT isTenantsApiEnabled searchParams)
  = if strict_eq (get searchParams "resourceType") activeTab
    then []
    else [(createSearchParams activeTab, Replace)].
Proof.
  simpl. unfold Stateless.syncUrl, Stateless.resourceTypeFromUrl.
  by destruct (strict_eq _ _).
Qed.

Lemma stateless_effects_replace (previous : option URLSearchParams)
    (searchParams : URLSearchParams) :
  Forall (λ w, w.2 = Replace)
    (writes (Stateless.effects ResourceType_values TENANT isTenantsApiEnabled
               previous searchParams)).
Proof.
  unfold Stateless.effects.
  match goal with |- context [useEffect ?b ?d ?p] =>
    destruct (useEffect_cases b d p) as [-> | ->] end; [|constructor].
  pose proof (stateless_syncUrl_writes searchParams) as Hw. simpl in Hw. rewrite Hw.
  destruct (strict_eq _ _); repeat constructor.
Qed.

(** What a trace does to the length of the history: every write in push
    mode adds an entry, no other call does. *)
Lemma stateful_history_length (trace : list Cmd) : ∀ w : Stateful.World,
  history_length (Stateful.router (foldl Stateful.run_cmd w trace))
  = (history_length (Stateful.router w)
     + length (filter (λ w, w.2 = Push) (writes trace)))%nat.
Proof.
  induction trace as [|c trace IH]; intros w.
  { unfold history_length. simpl. lia. }
  simpl. rewrite IH. destruct c as [tab|next [[[]]|]| |]; simpl;
    rewrite ?filter_cons_True, ?filter_cons_False by done;
    unfold history_length; simpl; lia.
Qed.

Lemma stateless_history_length (trace : list Cmd) : ∀ w : Stateless.World,
  history_length (Stateless.router (foldl Stateless.run_cmd w trace))
  = (history_length (Stateless.router w)
     + length (filter (λ w, w.2 = Push) (writes trace)))%nat.
Proof.
  induction trace as [|c trace IH]; intros w.
  { unfold history_length. simpl. lia. }
  simpl. rewrite IH. destruct c as [tab|next [[[]]|]| |]; simpl;
    rewrite ?filter_cons_True, ?filter_cons_False by done;
    unfold history_length; simpl; lia.
Qed.

Lemma no_push_among_replace (ws : list (URLSearchParams * NavigationMode)) :
  Forall (λ w, w.2 = Replace) ws → filter (λ w, w.2 = Push) ws = [].
Proof.
  intros Hall. apply filter_none. intros w Hw Hpush.
  rewrite Forall_forall in Hall. specialize (Hall w Hw). congruence.
Qed.
End Navigation.

(** C7, as the code has it. Every write of the [resourceType] parameter
    made by an effect uses replace mode, in both versions, and leaves the
    length of the history as it is; in the stateful version the effect is
    the only writer (the selection handler writes nothing). The selection
    handler of the stateless version writes the parameter without
    navigation options, that is in push mode, and adds a history entry. *)
Theorem C7_navigation_modes
    (ResourceType_values : list ResourceType) (TENANT : ResourceType)
    (isTenantsApiEnabled : bool)
    (previous : option Stateful.Render) (r : Stateful.Render) (w : Stateful.World)
    (previous' : option URLSearchParams) (searchParams : URLSearchParams)
    (w' : Stateless.World) (selectedIndex : Z) :
  let tabs := Stateful.authorizationTabs ResourceType_values TENANT isTenantsApiEnabled in
  Forall (λ write, write.2 = Replace)
    (writes (Stateful.effects ResourceType_values TENANT isTenantsApiEnabled previous r))
  ∧ writes (Stateful.handleTabChange ResourceType_values TENANT isTenantsApiEnabled
              selectedIndex) = []
  ∧ history_length
      (Stateful.router (Stateful.commit ResourceType_values TENANT isTenantsApiEnabled w))
    = history_length (Stateful.router w)
  ∧ history_length
      (Stateful.router
         (Stateful.select_tab ResourceType_values TENANT isTenantsApiEnabled selectedIndex w))
    = history_length (Stateful.router w)
  ∧ Forall (λ write, write.2 = Replace)
      (writes (Stateless.effects ResourceType_values TENANT isTenantsApiEnabled
                 previous' searchParams))
  ∧ history_length
      (Stateless.router (Stateless.commit ResourceType_values TENANT isTenantsApiEnabled w'))
    = history_length (Stateless.router w')
  ∧ writes (Stateless.handleTabChange ResourceType_values TENANT isTenantsApiEnabled
              selectedIndex)
    = [(createSearchParams (array_get tabs selectedIndex), Push)]
  ∧ history_length
      (Stateless.router
         (Stateless.select_tab ResourceType_values TENANT isTenantsApiEnabled
            selectedIndex w'))
    = S (history_length (Stateless.router w')).
Proof.
  intros tabs.
  split; [apply stateful_effects_replace|].
  split; [done|].
  split.
  { unfold Stateful.commit. simpl. rewrite stateful_history_length.
    rewrite no_push_among_replace by apply stateful_effects_replace. unfold history_length. simpl. lia. }
  split.
  { unfold Stateful.select_tab. rewrite stateful_history_length. unfold history_length. simpl. lia. }
  split; [apply stateless_effects_replace|].
  split.
  { unfold Stateless.commit. simpl. rewrite stateless_history_length.
    rewrite no_push_among_replace by apply stateless_effects_replace. unfold history_length. simpl. lia. }
  split; [done|].
  unfold Stateless.select_tab. rewrite stateless_history_length.
  unfold history_length. simpl. lia.
Qed.

(** C7 as stated fails: selecting the second tab in the stateless version
    writes the parameter in push mode and the history grows from one entry
    to two. *)
Lemma C7_stateless_selection_pushes :
  let w := Stateless.start [("resourceType", "authorization")] [] in
  writes (Stateless.handleTabChange sample_values sample_tenant true 1)
  = [([("resourceType", "tenant")], Push)]
  ∧ ¬ Forall (λ write, write.2 = Replace)
        (writes (Stateless.handleTabChange sample_values sample_tenant true 1))
  ∧ history_length (Stateless.router w) = 1%nat
  ∧ history_length
      (Stateless.router (Stateless.select_tab sample_values sample_tenant true 1 w))
    = 2%nat.
Proof.
  simpl. split; [reflexivity|]. split; [|split; reflexivity].
  intros H. apply Forall_inv in H. discriminate H.
Qed.

(** ** Pagination reset *)

Section Reset.
Variable ResourceType_values : list ResourceType.
Variable TENANT : ResourceType.
Variable isTenantsApiEnabled : bool.

(** The stateful version resets the pagination in the effect phase of the
    first render and of every render whose [activeTab] differs from that of
    the render before, whatever changed it. *)
Lemma stateful_reset_on_mount (r : Stateful.Render) :
  resetPagination
  ∈ Stateful.effects ResourceType_values TENANT isTenantsApiEnabled None r.
Proof.
  unfold Stateful.effects. rewrite !elem_of_app. right. right.
  simpl. apply list_elem_of_here.
Qed.

Lemma stateful_reset_on_tab_change (previous r : Stateful.Render) :
  Stateful.activeTab previous ≠ Stateful.activeTab r →
  resetPagination
  ∈ Stateful.effects ResourceType_values TENANT isTenantsApiEnabled (Some previous) r.
Proof.
  intros Hne. unfold Stateful.effects. rewrite !elem_of_app. right. right.
  simpl. rewrite decide_False by done. apply list_elem_of_here.
Qed.

(** The selection handler of the stateless version resets the pagination
    before it writes the query string. *)
Lemma stateless_handler_resets_first (selectedIndex : Z) :
  ∃ write opts,
    Stateless.handleTabChange ResourceType_values TENANT isTenantsApiEnabled selectedIndex
    = [resetPagination; setSearchParams write opts].
Proof. by eexists _, _. Qed.

(** No effect of the stateless version resets the pagination. *)
Lemma stateless_effects_never_reset (previous : option URLSearchParams)
    (searchParams : URLSearchParams) :
  count_calls resetPagination
    (Stateless.effects ResourceType_values TENANT isTenantsApiEnabled previous searchParams)
  = 0%nat.
Proof.
  unfold Stateless.effects.
  match goal with |- context [useEffect ?b ?d ?p] =>
    destruct (useEffect_cases b d p) as [-> | ->] end; [|done].
  unfold Stateless.syncUrl. by destruct (negb _).
Qed.
End Reset.

(** C6, where the code departs from it. In the stateless version a change
    of the URL from outside the component (here from the tab
    "authorization" to the tab "user") changes the active tab, and the
    render that follows calls nothing at all, [resetPagination] included;
    no effect of that version ever calls it. *)
Theorem C6_stateless_navigation_without_reset :
  let w0 := Stateless.commit sample_values sample_tenant true
              (Stateless.start [("resourceType", "authorization")] []) in
  let w1 := Stateless.external_navigation [("resourceType", "user")] w0 in
  Stateless.activeTab sample_values sample_tenant true
    (location (Stateless.router w0)) = Str "authorization"
  ∧ Stateless.activeTab sample_values sample_tenant true
      (location (Stateless.router w1)) = Str "user"
  ∧ Stateless.effects sample_values sample_tenant true
      (Stateless.rendered w1) (location (Stateless.router w1)) = []
  ∧ ∀ ResourceType_values TENANT isTenantsApiEnabled previous searchParams,
      count_calls resetPagination
        (Stateless.effects ResourceType_values TENANT isTenantsApiEnabled
           previous searchParams) = 0%nat.
Proof.
  simpl. split; [reflexivity|]. split; [reflexivity|]. split; [reflexivity|].
  apply stateless_effects_never_reset.
Qed.

(** ** Synchronization of the URL *)

Lemma useEffect_mount {D : Type} `{EqDecision D} (body : list Cmd) (deps : D) :
  useEffect body deps None = body.
Proof. reflexivity. Qed.

Lemma useEffect_changed {D : Type} `{EqDecision D} (body : list Cmd) (deps d : D) :
  d ≠ deps → useEffect body deps (Some d) = body.
Proof. intros Hne. unfold useEffect. by rewrite decide_False. Qed.

Lemma useEffect_unchanged {D : Type} `{EqDecision D} (body : list Cmd) (deps : D) :
  useEffect body deps (Some deps) = [].
Proof. unfold useEffect. by rewrite decide_True. Qed.

Lemma useEffect_nil {D : Type} `{EqDecision D} (deps : D) (previous : option D) :
  useEffect [] deps previous = [].
Proof. by destruct (useEffect_cases [] deps previous). Qed.

Lemma strict_eq_true (a b : jsval) : strict_eq a b = true ↔ a = b.
Proof. unfold strict_eq. apply bool_decide_eq_true. Qed.

Lemma strict_eq_false (a b : jsval) : strict_eq a b = false ↔ a ≠ b.
Proof. unfold strict_eq. apply bool_decide_eq_false. Qed.

Section Settling.
Variable ResourceType_values : list ResourceType.
Variable TENANT : ResourceType.
Variable isTenantsApiEnabled : bool.
Hypothesis values_not_empty_strings : "" ∉ ResourceType_values.

Let tabs := Stateful.authorizationTabs ResourceType_values TENANT isTenantsApiEnabled.
Let resolve := Stateful.getActiveTabFromUrl ResourceType_values TENANT isTenantsApiEnabled.
Let stateless_settled := Stateless.settled ResourceType_values TENANT isTenantsApiEnabled.

(** The synchronization effect writes exactly when the parameter differs
    from the active tab. *)
Lemma stateful_syncUrl_iff (r : Stateful.Render) :
  Stateful.syncUrl r = []
  ↔ get (Stateful.searchParams r) "resourceType" = Stateful.activeTab r.
Proof.
  unfold Stateful.syncUrl. rewrite <- strict_eq_true.
  by destruct (strict_eq _ _).
Qed.

Lemma stateless_syncUrl_iff (searchParams : URLSearchParams) :
  Stateless.syncUrl ResourceType_values TENANT isTenantsApiEnabled searchParams = []
  ↔ get searchParams "resourceType" = resolve searchParams.
Proof.
  unfold Stateless.syncUrl, Stateless.resourceTypeFromUrl, Stateless.activeTab.
  rewrite stateless_initialTab. fold resolve. rewrite <- strict_eq_true.
  by destruct (strict_eq _ _).
Qed.

(** A query string that holds a tab resolves to that tab. *)
Lemma resolve_holding_tab (searchParams : URLSearchParams) (x : ResourceType) :
  x ∈ tabs → get searchParams "resourceType" = Str x → resolve searchParams = Str x.
Proof. intros Hx Hget. by apply getActiveTabFromUrl_member. Qed.

Lemma resolve_set (searchParams : URLSearchParams) (x : ResourceType) :
  x ∈ tabs → resolve (set searchParams "resourceType" x) = Str x.
Proof. intros Hx. apply resolve_holding_tab; [done|apply get_set]. Qed.

(** *** Stateless version *)

Lemma stateless_settled_iff (searchParams : URLSearchParams) :
  stateless_settled searchParams ↔ get searchParams "resourceType" = resolve searchParams.
Proof. reflexivity. Qed.

Lemma stateless_settled_effects (previous : option URLSearchParams)
    (searchParams : URLSearchParams) :
  stateless_settled searchParams →
  Stateless.effects ResourceType_values TENANT isTenantsApiEnabled previous searchParams = [].
Proof.
  intros Hs%stateless_settled_iff. unfold Stateless.effects.
  match goal with |- context [useEffect ?b ?d ?p] =>
    destruct (useEffect_cases b d p) as [-> | ->] end; [|done].
  by apply stateless_syncUrl_iff.
Qed.

(** After a render from a fresh mount, or from a world whose last render
    was settled, the URL holds the active tab. *)
Lemma stateless_commit_settles (w : Stateless.World) :
  tabs ≠ [] →
  (Stateless.rendered w = None
   ∨ ∃ p, Stateless.rendered w = Some p ∧ stateless_settled p) →
  let w1 := Stateless.commit ResourceType_values TENANT isTenantsApiEnabled w in
  stateless_settled (location (Stateless.router w1))
  ∧ resolve (location (Stateless.router w1)) = resolve (location (Stateless.router w))
  ∧ (length (writes (Stateless.effects ResourceType_values TENANT isTenantsApiEnabled
                       (Stateless.rendered w) (location (Stateless.router w)))) ≤ 1)%nat.
Proof.
  intros Htabs Hprev. simpl.
  set (sp := location (Stateless.router w)).
  destruct (decide (stateless_settled sp)) as [Hs|Hs].
  { unfold Stateless.commit. fold sp.
    rewrite (stateless_settled_effects _ _ Hs). simpl. fold sp. auto with lia. }
  destruct (getActiveTabFromUrl_in_tabs ResourceType_values TENANT isTenantsApiEnabled
              sp Htabs) as (x & Hx & Hin).
  fold resolve in Hx.
  assert (Stateless.effects ResourceType_values TENANT isTenantsApiEnabled
            (Stateless.rendered w) sp
          = [setSearchParams (createSearchParams (Str x)) (Some {| replace := true |})])
    as Heff.
  { unfold Stateless.effects.
    assert (Stateless.syncUrl ResourceType_values TENANT isTenantsApiEnabled sp
            = [setSearchParams (createSearchParams (Str x)) (Some {| replace := true |})])
      as Hbody.
    { unfold Stateless.syncUrl, Stateless.resourceTypeFromUrl, Stateless.activeTab.
      rewrite stateless_initialTab. fold resolve. rewrite Hx.
      destruct (strict_eq (get sp "resourceType") (Str x)) eqn:Heq; [|done].
      apply strict_eq_true in Heq. exfalso. apply Hs.
      apply stateless_settled_iff. congruence. }
    destruct Hprev as [-> | (p & -> & Hp)]; [done|].
    change (useEffect ?b ?d (?f <$> Some p)) with (useEffect b d (Some (f p))).
    rewrite useEffect_changed; [done|].
    intros Hdeps. apply Hs. unfold stateless_settled, Stateless.settled in *.
    congruence. }
  unfold Stateless.commit. fold sp. rewrite Heff. simpl.
  split; [|split; [|lia]].
  - apply stateless_settled_iff. symmetry. by apply resolve_holding_tab.
  - rewrite Hx. by apply resolve_holding_tab.
Qed.

Lemma stateless_commit_fixpoint (w : Stateless.World) :
  stateless_settled (location (Stateless.router w)) →
  Stateless.rendered w = Some (location (Stateless.router w)) →
  Stateless.commit ResourceType_values TENANT isTenantsApiEnabled w = w.
Proof.
  intros Hs Hr. unfold Stateless.commit.
  rewrite (stateless_settled_effects _ _ Hs). simpl. rewrite <- Hr. by destruct w.
Qed.
End Settling.

Section StatefulSettling.
Variable ResourceType_values : list ResourceType.
Variable TENANT : ResourceType.
Variable isTenantsApiEnabled : bool.
Hypothesis values_not_empty_strings : "" ∉ ResourceType_values.

Let tabs := Stateful.authorizationTabs ResourceType_values TENANT isTenantsApiEnabled.
Let resolve := Stateful.getActiveTabFromUrl ResourceType_values TENANT isTenantsApiEnabled.
Let effects := Stateful.effects ResourceType_values TENANT isTenantsApiEnabled.
Let commit := Stateful.commit ResourceType_values TENANT isTenantsApiEnabled.
Let settled := Stateful.settled ResourceType_values TENANT isTenantsApiEnabled.
Let pending := Stateful.pending ResourceType_values TENANT isTenantsApiEnabled.

Lemma stateful_syncActiveTab_iff (r : Stateful.Render) :
  Stateful.syncActiveTab ResourceType_values TENANT isTenantsApiEnabled r = []
  ↔ resolve (Stateful.searchParams r) = Stateful.activeTab r.
Proof.
  unfold Stateful.syncActiveTab. fold resolve. rewrite <- strict_eq_true.
  by destruct (strict_eq _ _).
Qed.

Lemma stateful_settled_effects (previous r : Stateful.Render) :
  settled r → Stateful.activeTab previous = Stateful.activeTab r →
  effects (Some previous) r = [].
Proof.
  intros [Hurl Hres] Htab. unfold effects, Stateful.effects.
  apply stateful_syncUrl_iff in Hurl. apply stateful_syncActiveTab_iff in Hres.
  rewrite Hurl, Hres, !useEffect_nil. simpl.
  rewrite Htab. apply useEffect_unchanged.
Qed.

(** The first render of the stateful version leaves the URL holding the
    active tab, after at most one write. *)
Lemma stateful_mount_settles (searchParams : URLSearchParams)
    (history : list URLSearchParams) :
  tabs ≠ [] →
  let w0 := Stateful.start ResourceType_values TENANT isTenantsApiEnabled
              searchParams history in
  let w1 := commit w0 in
  settled (Stateful.current w1)
  ∧ Stateful.state w1 = resolve searchParams
  ∧ Stateful.rendered w1
    = Some (Stateful.mount ResourceType_values TENANT isTenantsApiEnabled searchParams)
  ∧ writes (pending w0)
    = (if strict_eq (get searchParams "resourceType") (resolve searchParams)
       then []
       else [(set searchParams "resourceType" (js_String (resolve searchParams)), Replace)]).
Proof.
  intros Htabs. simpl.
  destruct (getActiveTabFromUrl_in_tabs ResourceType_values TENANT isTenantsApiEnabled
              searchParams Htabs) as (x & Hx & Hin).
  pose proof Hx as Hx'. fold resolve in Hx.
  set (r0 := Stateful.mount ResourceType_values TENANT isTenantsApiEnabled searchParams).
  assert (effects None r0 = Stateful.syncUrl r0 ++ [resetPagination]) as Heff.
  { unfold effects, Stateful.effects. simpl.
    unfold Stateful.syncActiveTab. simpl. fold resolve.
    by rewrite (proj2 (strict_eq_true _ _) eq_refl). }
  unfold pending, Stateful.pending, commit, Stateful.commit. fold effects.
  change (Stateful.current
            (Stateful.start ResourceType_values TENANT isTenantsApiEnabled
               searchParams history)) with r0.
  change (Stateful.rendered
            (Stateful.start ResourceType_values TENANT isTenantsApiEnabled
               searchParams history)) with (@None Stateful.Render).
  rewrite Heff, writes_app, stateful_syncUrl_writes. simpl.
  fold resolve. rewrite Hx. simpl.
  unfold Stateful.syncUrl. simpl. fold resolve. rewrite Hx.
  destruct (strict_eq (get searchParams "resourceType") (Str x)) eqn:Heq; simpl.
  - apply strict_eq_true in Heq.
    split; [|done]. split; simpl; [by rewrite Hx'|by fold resolve].
  - split; [|done]. split; simpl; rewrite Hx'.
    + apply get_set.
    + by apply resolve_set.
Qed.

Lemma stateful_commit_fixpoint (w : Stateful.World) :
  settled (Stateful.current w) →
  Stateful.rendered w = Some (Stateful.current w) →
  commit w = w.
Proof.
  intros Hs Hr. unfold commit, Stateful.commit. rewrite Hr.
  fold effects. rewrite stateful_settled_effects by done. simpl.
  rewrite <- Hr. by destruct w.
Qed.

(** When state and URL hold two different tabs, one effect sets the state
    to the URL's tab while the other writes the state's tab to the URL:
    the render that follows finds them exchanged. *)
Lemma stateful_commit_crosses (x y : ResourceType) (w : Stateful.World) :
  x ≠ y → x ∈ tabs → y ∈ tabs →
  Stateful.crossed x y w →
  Stateful.crossed y x (commit w)
  ∧ writes (pending w)
    = [(set (location (Stateful.router w)) "resourceType" x, Replace)].
Proof.
  intros Hne Hx Hy (Hstate & Hurl & Hprev).
  set (r := Stateful.current w).
  assert (Str y ≠ Str x) as Hne' by congruence.
  apply strict_eq_false in Hne'.
  pose proof (resolve_holding_tab _ _ _ values_not_empty_strings _ y Hy Hurl) as Hres.
  assert (Stateful.syncActiveTab ResourceType_values TENANT isTenantsApiEnabled r
          = [setActiveTab (Str y)]) as Hsync.
  { unfold Stateful.syncActiveTab, r, Stateful.current.
    cbn [Stateful.searchParams Stateful.activeTab].
    by rewrite Hres, Hstate, Hne'. }
  assert (Stateful.syncUrl r
          = [setSearchParams (set (location (Stateful.router w)) "resourceType" x)
               (Some {| replace := true |})]) as Hwrite.
  { unfold Stateful.syncUrl, r, Stateful.current.
    cbn [Stateful.searchParams Stateful.activeTab].
    by rewrite Hurl, Hstate, Hne'. }
  assert (∃ tail, (tail = [] ∨ tail = [resetPagination])
            ∧ effects (Stateful.rendered w) r
              = [setActiveTab (Str y);
                 setSearchParams (set (location (Stateful.router w)) "resourceType" x)
                   (Some {| replace := true |})] ++ tail) as (tail & Htail & Heff).
  { unfold effects, Stateful.effects. rewrite Hsync, Hwrite.
    exists (useEffect (Stateful.resetOnTabChange r) (Stateful.activeTab r)
              (Stateful.activeTab <$> Stateful.rendered w)).
    split.
    { destruct (useEffect_cases (Stateful.resetOnTabChange r) (Stateful.activeTab r)
                  (Stateful.activeTab <$> Stateful.rendered w)) as [-> | ->]; auto. }
    destruct (Stateful.rendered w) as [p|] eqn:Hp; [|done].
    change (useEffect ?b ?d (?f <$> Some p)) with (useEffect b d (Some (f p))).
    rewrite (useEffect_changed [setActiveTab (Str y)]),
      (useEffect_changed [setSearchParams _ _]); [done|..].
    - intros Hdeps. apply Hprev. f_equal. destruct p as [sp' tab'].
      unfold r, Stateful.current in *. simpl in *. congruence.
    - intros Hdeps. apply Hprev. f_equal. destruct p as [sp' tab'].
      unfold r, Stateful.current in *. simpl in *. congruence. }
  split.
  - unfold commit, Stateful.commit. fold r effects. rewrite Heff.
    destruct Htail as [-> | ->]; simpl.
    all: split; [done|]; split; [apply get_set|]; simpl.
    all: intros [= _ Hr]; rewrite Hstate in Hr; congruence.
  - unfold pending, Stateful.pending. fold r effects. rewrite Heff.
    by destruct Htail as [-> | ->].
Qed.

(** From then on every render writes the URL again. *)
Lemma stateful_crossed_forever (n : nat) : ∀ (x y : ResourceType) (w : Stateful.World),
  x ≠ y → x ∈ tabs → y ∈ tabs →
  Stateful.crossed x y w →
  writes (pending (Nat.iter n commit w)) ≠ [].
Proof.
  induction n as [|n IH]; intros x y w Hne Hx Hy Hw.
  - simpl. by rewrite (proj2 (stateful_commit_crosses x y w Hne Hx Hy Hw)).
  - rewrite Nat.iter_succ_r.
    apply (IH y x); [done..|].
    by apply (stateful_commit_crosses x y w).
Qed.
End StatefulSettling.

Lemma sample_values_not_empty_strings : "" ∉ sample_values.
Proof. apply (bool_decide_unpack _). vm_compute. exact I. Qed.

Lemma sample_tabs_members :
  "authorization" ∈ Stateful.authorizationTabs sample_values sample_tenant true
  ∧ "user" ∈ Stateful.authorizationTabs sample_values sample_tenant true.
Proof. split; apply (bool_decide_unpack _); vm_compute; exact I. Qed.

(** C8, where the code departs from it. The stateful version is mounted on
    the tab "user" and has settled. Then either the URL is edited to an
    invalid value, or the user selects the first tab. In the first case the
    URL is rewritten to "user", the tab of the state, not to the resolved
    first tab "authorization", while the state is set to "authorization".
    In both cases state and URL then hold two different tabs, each effect
    corrects towards the other, and every later render writes the URL
    again: no fixpoint is reached. *)
Theorem C8_stateful_effects_never_settle :
  let commit := Stateful.commit sample_values sample_tenant true in
  let pending := Stateful.pending sample_values sample_tenant true in
  let w0 := commit (Stateful.start sample_values sample_tenant true
                      [("resourceType", "user")] []) in
  let edited := Stateful.external_navigation [("resourceType", "bogus")] w0 in
  let clicked := Stateful.select_tab sample_values sample_tenant true 0 w0 in
  pending w0 = []
  ∧ Stateful.getActiveTabFromUrl sample_values sample_tenant true
      [("resourceType", "bogus")] = Str "authorization"
  ∧ pending edited
    = [setActiveTab (Str "authorization");
       setSearchParams [("resourceType", "user")] (Some {| replace := true |})]
  ∧ (∀ n, writes (pending (Nat.iter n commit edited)) ≠ [])
  ∧ (∀ n, writes (pending (Nat.iter n commit clicked)) ≠ []).
Proof.
  intros commit pending w0 edited clicked.
  destruct sample_tabs_members as [Ha Hu].
  split; [reflexivity|]. split; [reflexivity|]. split; [reflexivity|]. split.
  - intros [|n]; [by vm_compute|].
    rewrite Nat.iter_succ_r.
    apply (stateful_crossed_forever sample_values sample_tenant true
             sample_values_not_empty_strings n "authorization" "user");
      [done..|].
    split; [reflexivity|]. split; [reflexivity|]. by vm_compute.
  - intros n.
    apply (stateful_crossed_forever sample_values sample_tenant true
             sample_values_not_empty_strings n "authorization" "user");
      [done..|].
    split; [reflexivity|]. split; [reflexivity|]. by vm_compute.
Qed.

(** After a selection beyond the tabs the stateless version holds the text
    "undefined" in the URL, and its next render resolves to the first tab. *)
Example stateless_selection_beyond_the_tabs :
  let w := Stateless.select_tab sample_values sample_tenant false 5
             (Stateless.start [("resourceType", "user")] []) in
  location (Stateless.router w) = [("resourceType", "undefined")]
  ∧ Stateless.activeTab sample_values sample_tenant false (location (Stateless.router w))
    = Str "authorization".
Proof. split; reflexivity. Qed.

(** Mounted on an unknown resource type, both versions resolve to the first
    tab and rewrite the URL once, in replace mode. *)
Example mount_on_unknown_resource_type :
  Stateful.pending sample_values sample_tenant true
    (Stateful.start sample_values sample_tenant true [("resourceType", "UNKNOWN")] [])
  = [setSearchParams [("resourceType", "authorization")] (Some {| replace := true |});
     resetPagination]
  ∧ Stateless.effects sample_values sample_tenant true None [("resourceType", "UNKNOWN")]
    = [setSearchParams [("resourceType", "authorization")] (Some {| replace := true |})].
Proof. split; reflexivity. Qed.

(** Mounted on a valid tab, neither version writes the URL. *)
Example mount_on_valid_tab :
  Stateful.pending sample_values sample_tenant true
    (Stateful.start sample_values sample_tenant true [("resourceType", "tenant")] [])
  = [resetPagination]
  ∧ Stateless.effects sample_values sample_tenant true None [("resourceType", "tenant")]
    = [].
Proof. split; reflexivity. Qed.

(** * Further properties of the component *)

(** ** Resolution on any enumeration *)

(** X1. Whatever the enumeration and the query string, the active tab both
    versions resolve is a member of the tab set exactly when the tab set is
    not empty, and it is [undefined] exactly when the tab set is empty. *)
Theorem X1_resolution_member_iff_tabs
    (ResourceType_values : list ResourceType) (TENANT : ResourceType)
    (isTenantsApiEnabled : bool) (searchParams : URLSearchParams) :
  let tabs := Stateful.authorizationTabs ResourceType_values TENANT isTenantsApiEnabled in
  let result :=
    Stateful.getActiveTabFromUrl ResourceType_values TENANT isTenantsApiEnabled searchParams in
  Stateless.activeTab ResourceType_values TENANT isTenantsApiEnabled searchParams = result
  ∧ (is_tab tabs result ↔ tabs ≠ [])
  ∧ (result = Undefined ↔ tabs = []).
Proof.
  intros tabs result. split; [apply stateless_initialTab|].
  unfold result. rewrite getActiveTabFromUrl_cases. fold tabs.
  assert (∀ v, v = array_get tabs 0 →
            (is_tab tabs v ↔ tabs ≠ []) ∧ (v = Undefined ↔ tabs = [])) as Hfirst.
  { intros v ->. rewrite array_get_0. destruct tabs as [|x rest].
    - split; [|done]. split; [by intros (? & ? & ?)|done].
    - split; split; try done. intros _. exists x. split; [done|apply list_elem_of_here]. }
  destruct (get searchParams "resourceType") as [| |v]; [by apply Hfirst..|].
  case_bool_decide as Hv; [|by apply Hfirst].
  destruct Hv as [_ Hin]. split; split; try done.
  - intros _ ->. by apply not_elem_of_nil in Hin.
  - intros _. by exists v.
  - intros ->. by apply not_elem_of_nil in Hin.
Qed.

(** X2. A [resourceType] parameter that is present but empty is treated as
    a missing one: both versions resolve to the first element of the tab
    set (or to [undefined] when there is none), even for an enumeration
    that had the empty string among its values. *)
Theorem X2_empty_parameter_resolves_as_missing
    (ResourceType_values : list ResourceType) (TENANT : ResourceType)
    (isTenantsApiEnabled : bool) (searchParams : URLSearchParams) :
  get searchParams "resourceType" = Str "" →
  let tabs := Stateful.authorizationTabs ResourceType_values TENANT isTenantsApiEnabled in
  Stateful.getActiveTabFromUrl ResourceType_values TENANT isTenantsApiEnabled searchParams
  = array_get tabs 0
  ∧ Stateless.activeTab ResourceType_values TENANT isTenantsApiEnabled searchParams
    = array_get tabs 0.
Proof.
  intros Hget tabs.
  assert (Stateful.getActiveTabFromUrl ResourceType_values TENANT isTenantsApiEnabled
            searchParams = array_get tabs 0) as Hres.
  { rewrite getActiveTabFromUrl_cases, Hget. rewrite bool_decide_false; [done|].
    by intros [? _]. }
  split; [done|]. unfold Stateless.activeTab. by rewrite stateless_initialTab.
Qed.

Lemma X2_empty_parameter_resolves_as_missing_witness :
  let tabs := Stateful.authorizationTabs ["authorization"; ""; "user"] "tenant" true in
  Stateful.getActiveTabFromUrl ["authorization"; ""; "user"] "tenant" true
    [("resourceType", "")] = array_get tabs 0
  ∧ Stateless.activeTab ["authorization"; ""; "user"] "tenant" true [("resourceType", "")]
    = array_get tabs 0.
Proof.
  apply (X2_empty_parameter_resolves_as_missing ["authorization"; ""; "user"] "tenant" true
           [("resourceType", "")]).
  reflexivity.
Defined.

(** X3. Writing a tab and resolving it again gives the tab back: for a
    non-empty member [x] of the tab set, the query string the stateful
    effect writes ([set]) and the one the stateless version writes
    ([createSearchParams]) both hold [x] and both resolve to [x]. *)
Theorem X3_written_tab_resolves_to_itself
    (ResourceType_values : list ResourceType) (TENANT : ResourceType)
    (isTenantsApiEnabled : bool) (searchParams : URLSearchParams) (x : ResourceType) :
  x ∈ Stateful.authorizationTabs ResourceType_values TENANT isTenantsApiEnabled →
  x ≠ "" →
  get (set searchParams "resourceType" (js_String (Str x))) "resourceType" = Str x
  ∧ Stateful.getActiveTabFromUrl ResourceType_values TENANT isTenantsApiEnabled
      (set searchParams "resourceType" (js_String (Str x))) = Str x
  ∧ get (createSearchParams (Str x)) "resourceType" = Str x
  ∧ Stateless.activeTab ResourceType_values TENANT isTenantsApiEnabled
      (createSearchParams (Str x)) = Str x.
Proof.
  intros Hin Hne.
  assert (∀ sp, get sp "resourceType" = Str x →
            Stateful.getActiveTabFromUrl ResourceType_values TENANT isTenantsApiEnabled sp
            = Str x) as Hres.
  { intros sp Hget. rewrite getActiveTabFromUrl_cases, Hget.
    by rewrite bool_decide_true. }
  split; [apply get_set|]. split; [apply Hres, get_set|]. split; [done|].
  unfold Stateless.activeTab. rewrite stateless_initialTab. by apply Hres.
Qed.

Lemma X3_written_tab_resolves_to_itself_witness :
  get (set [("page", "3"); ("resourceType", "bogus")] "resourceType" (js_String (Str "user")))
    "resourceType" = Str "user"
  ∧ Stateful.getActiveTabFromUrl sample_values sample_tenant false
      (set [("page", "3"); ("resourceType", "bogus")] "resourceType" (js_String (Str "user")))
    = Str "user"
  ∧ get (createSearchParams (Str "user")) "resourceType" = Str "user"
  ∧ Stateless.activeTab sample_values sample_tenant false (createSearchParams (Str "user"))
    = Str "user".
Proof.
  apply (X3_written_tab_resolves_to_itself sample_values sample_tenant false
           [("page", "3"); ("resourceType", "bogus")] "user").
  - apply (bool_decide_unpack _). vm_compute. exact I.
  - discriminate.
Defined.

(** ** The selected index *)

Lemma indexOf_from_not_in (arr : list ResourceType) (v : jsval) (k : Z) :
  ¬ is_tab arr v → indexOf_from arr v k = -1.
Proof.
  revert k. induction arr as [|x rest IH]; intros k Hnot; [done|]. simpl.
  rewrite bool_decide_false.
  - apply IH. intros (y & -> & Hy). apply Hnot. exists y.
    split; [done|by apply list_elem_of_further].
  - intros <-. apply Hnot. exists x. split; [done|apply list_elem_of_here].
Qed.

Lemma indexOf_from_in (arr : list ResourceType) (x : ResourceType) (k : Z) :
  x ∈ arr →
  ∃ n : nat, indexOf_from arr (Str x) k = k + Z.of_nat n ∧ arr !! n = Some x.
Proof.
  revert k. induction arr as [|y rest IH]; intros k Hin.
  { by apply not_elem_of_nil in Hin. }
  simpl. case_bool_decide as Hy.
  - exists 0%nat. split; [lia|]. simpl. congruence.
  - apply elem_of_cons in Hin as [->|Hin]; [done|].
    destruct (IH (k + 1) Hin) as (n & Hn & Hlook).
    exists (S n). split; [lia|done].
Qed.

Lemma indexOf_from_lookup (arr : list ResourceType) (x : ResourceType) (n : nat) (k : Z) :
  NoDup arr → arr !! n = Some x → indexOf_from arr (Str x) k = k + Z.of_nat n.
Proof.
  intros Hnd. revert n k. induction Hnd as [|y rest Hy Hnd IH]; intros n k Hlook; [done|].
  simpl. destruct n as [|n]; simpl in Hlook.
  - injection Hlook as ->. rewrite bool_decide_true by done. lia.
  - rewrite bool_decide_false.
    + rewrite (IH n (k + 1) Hlook). lia.
    + intros [= ->]. apply Hy. apply list_elem_of_lookup. eauto.
Qed.

(** X4. The index handed to the tab strip points back at the active tab:
    when the active tab is a member of the tab set, [selectedIndex] is a
    valid index and the change handler called with it selects the active
    tab again (in both versions); when it is not a member (the [undefined]
    left by a selection out of range), [selectedIndex] is [-1]. *)
Theorem X4_selected_index_points_at_active_tab
    (ResourceType_values : list ResourceType) (TENANT : ResourceType)
    (isTenantsApiEnabled : bool) (t : string → string)
    (r : Stateful.Render) (searchParams : URLSearchParams) (loading success : bool) :
  let tabs := Stateful.authorizationTabs ResourceType_values TENANT isTenantsApiEnabled in
  let view := Stateful.render ResourceType_values TENANT isTenantsApiEnabled t r
                loading success in
  let view' := Stateless.render ResourceType_values TENANT isTenantsApiEnabled t
                 searchParams loading success in
  let activeTab' :=
    Stateless.activeTab ResourceType_values TENANT isTenantsApiEnabled searchParams in
  (is_tab tabs (Stateful.activeTab r) →
     0 ≤ Stateful.selectedIndex view < Z.of_nat (length tabs)
     ∧ Stateful.onChange view (Stateful.selectedIndex view)
       = [setActiveTab (Stateful.activeTab r)])
  ∧ (¬ is_tab tabs (Stateful.activeTab r) → Stateful.selectedIndex view = -1)
  ∧ (is_tab tabs activeTab' →
       0 ≤ Stateless.selectedIndex view' < Z.of_nat (length tabs)
       ∧ Stateless.onChange view' (Stateless.selectedIndex view')
         = [resetPagination; setSearchParams (createSearchParams activeTab') None])
  ∧ (¬ is_tab tabs activeTab' → Stateless.selectedIndex view' = -1).
Proof.
  intros tabs view view' activeTab'.
  assert (∀ v, is_tab tabs v →
            0 ≤ indexOf tabs v < Z.of_nat (length tabs)
            ∧ array_get tabs (indexOf tabs v) = v) as Hback.
  { intros v (x & -> & Hx). unfold indexOf.
    destruct (indexOf_from_in tabs x 0 Hx) as (n & -> & Hlook).
    pose proof (lookup_lt_Some _ _ _ Hlook).
    split; [lia|]. apply array_get_in_range; [lia|].
    by rewrite Z.add_0_l, Nat2Z.id. }
  split; [|split; [|split]].
  - intros Htab. destruct (Hback _ Htab) as [Hrange Hget]. split; [done|].
    simpl. unfold Stateful.handleTabChange. fold tabs. by rewrite Hget.
  - intros Hnot. simpl. by apply indexOf_from_not_in.
  - intros Htab. destruct (Hback _ Htab) as [Hrange Hget]. split; [done|].
    simpl. unfold Stateless.handleTabChange.
    rewrite stateless_tabs. fold tabs.
    change (Stateless.activeTab ResourceType_values TENANT isTenantsApiEnabled
              searchParams) with activeTab'.
    by rewrite Hget.
  - intros Hnot. simpl. rewrite stateless_tabs. by apply indexOf_from_not_in.
Qed.

Lemma X4_selected_index_points_at_active_tab_witness :
  let tabs := Stateful.authorizationTabs sample_values sample_tenant true in
  let r := {| Stateful.searchParams := []; Stateful.activeTab := Str "tenant" |} in
  let view := Stateful.render sample_values sample_tenant true id r false true in
  let view' := Stateless.render sample_values sample_tenant true id
                 [("resourceType", "user")] false true in
  let activeTab' :=
    Stateless.activeTab sample_values sample_tenant true [("resourceType", "user")] in
  (0 ≤ Stateful.selectedIndex view < Z.of_nat (length tabs)
   ∧ Stateful.onChange view (Stateful.selectedIndex view)
     = [setActiveTab (Stateful.activeTab r)])
  ∧ (0 ≤ Stateless.selectedIndex view' < Z.of_nat (length tabs)
     ∧ Stateless.onChange view' (Stateless.selectedIndex view')
       = [resetPagination; setSearchParams (createSearchParams activeTab') None]).
Proof.
  pose proof (X4_selected_index_points_at_active_tab sample_values sample_tenant true id
                {| Stateful.searchParams := []; Stateful.activeTab := Str "tenant" |}
                [("resourceType", "user")] false true) as (H1 & _ & H2 & _).
  split.
  - apply H1. exists "tenant". split; [reflexivity|].
    apply (bool_decide_unpack _). vm_compute. exact I.
  - apply H2. exists "user". split; [reflexivity|].
    apply (bool_decide_unpack _). vm_compute. exact I.
Defined.

(** X5. Selecting a tab and rendering shows that tab selected: with
    distinct, non-empty enumeration values and a valid index [i], the
    render that follows the change handler has [selectedIndex = i], in
    both versions. *)
Theorem X5_selection_is_shown_selected
    (ResourceType_values : list ResourceType) (TENANT : ResourceType)
    (isTenantsApiEnabled : bool) (t : string → string) (i : Z)
    (w : Stateful.World) (w' : Stateless.World) (loading success : bool) :
  NoDup ResourceType_values →
  "" ∉ ResourceType_values →
  0 ≤ i < Z.of_nat (length
            (Stateful.authorizationTabs ResourceType_values TENANT isTenantsApiEnabled)) →
  Stateful.selectedIndex
    (Stateful.render ResourceType_values TENANT isTenantsApiEnabled t
       (Stateful.current
          (Stateful.select_tab ResourceType_values TENANT isTenantsApiEnabled i w))
       loading success) = i
  ∧ Stateless.selectedIndex
      (Stateless.render ResourceType_values TENANT isTenantsApiEnabled t
         (location (Stateless.router
            (Stateless.select_tab ResourceType_values TENANT isTenantsApiEnabled i w')))
         loading success) = i.
Proof.
  intros Hnd Hne [Hlo Hhi].
  set (tabs := Stateful.authorizationTabs ResourceType_values TENANT isTenantsApiEnabled)
    in *.
  destruct (lookup_lt_is_Some_2 tabs (Z.to_nat i)) as [x Hx]; [lia|].
  assert (array_get tabs i = Str x) as Hget by by apply array_get_in_range.
  assert (indexOf tabs (Str x) = i) as Hidx.
  { unfold indexOf. rewrite (indexOf_from_lookup tabs x (Z.to_nat i) 0); [lia| |done].
    by apply authorizationTabs_NoDup. }
  assert (x ∈ tabs) as Hin by (apply list_elem_of_lookup; eauto).
  split.
  - simpl. fold tabs. by rewrite Hget.
  - simpl. rewrite stateless_tabs. fold tabs. rewrite Hget.
    unfold Stateless.activeTab. rewrite stateless_initialTab.
    rewrite (getActiveTabFromUrl_member _ _ _ _ x Hne); [done|done|done].
Qed.

Lemma X5_selection_is_shown_selected_witness :
  Stateful.selectedIndex
    (Stateful.render sample_values sample_tenant false id
       (Stateful.current
          (Stateful.select_tab sample_values sample_tenant false 1
             (Stateful.start sample_values sample_tenant false [] [])))
       false true) = 1
  ∧ Stateless.selectedIndex
      (Stateless.render sample_values sample_tenant false id
         (location (Stateless.router
            (Stateless.select_tab sample_values sample_tenant false 1
               (Stateless.start [] []))))
         false true) = 1.
Proof.
  apply (X5_selection_is_shown_selected sample_values sample_tenant false id 1
           (Stateful.start sample_values sample_tenant false [] [])
           (Stateless.start [] []) false true).
  - apply (bool_decide_unpack _). vm_compute. exact I.
  - apply (bool_decide_unpack _). vm_compute. exact I.
  - vm_compute. split; [intros H; discriminate H|reflexivity].
Defined.

(** ** What a write does to the other query parameters *)

Lemma set_others (searchParams : URLSearchParams) (name value : string) :
  filter (λ kv, kv.1 ≠ name) (set searchParams name value)
  = filter (λ kv, kv.1 ≠ name) searchParams.
Proof.
  unfold URLSearchParams in *.
  induction searchParams as [|[k v] rest IH]; cbn [set].
  - rewrite filter_cons_False; [done|]. simpl. tauto.
  - case_bool_decide as Hk.
    + subst k. rewrite !filter_cons_False by (simpl; tauto).
      apply list_filter_filter_l. tauto.
    + rewrite !filter_cons_True by done. by rewrite IH.
Qed.

Lemma set_named (searchParams : URLSearchParams) (name value : string) :
  filter (λ kv, kv.1 = name) (set searchParams name value) = [(name, value)].
Proof.
  unfold URLSearchParams in *.
  induction searchParams as [|[k v] rest IH]; cbn [set].
  - by rewrite filter_cons_True.
  - case_bool_decide as Hk.
    + rewrite filter_cons_True by done. f_equal.
      rewrite list_filter_filter. apply filter_none. intros kv _ [? ?]. done.
    + by rewrite filter_cons_False.
Qed.

Lemma get_set_ne (searchParams : URLSearchParams) (name value k : string) :
  k ≠ name → get (set searchParams name value) k = get searchParams k.
Proof.
  intros Hne. unfold URLSearchParams in *.
  induction searchParams as [|[k' v] rest IH]; cbn [set get].
  - by rewrite bool_decide_false.
  - case_bool_decide as Hk; cbn [get].
    + subst k'. rewrite !bool_decide_false by done.
      clear IH. induction rest as [|[k' v'] rest IH]; [done|].
      destruct (decide (k' = name)) as [->|Hk'].
      * rewrite filter_cons_False by (simpl; tauto). cbn [get].
        by rewrite bool_decide_false.
      * rewrite filter_cons_True by done. cbn [get]. by rewrite IH.
    + by rewrite IH.
Qed.

Lemma stateful_effects_writes (previous : option Stateful.Render) (r : Stateful.Render)
    (ResourceType_values : list ResourceType) (TENANT : ResourceType)
    (isTenantsApiEnabled : bool) (write : URLSearchParams * NavigationMode) :
  write ∈ writes (Stateful.effects ResourceType_values TENANT isTenantsApiEnabled previous r) →
  write = (set (Stateful.searchParams r) "resourceType" (js_String (Stateful.activeTab r)),
           Replace).
Proof.
  unfold Stateful.effects. rewrite !writes_app, !elem_of_app.
  intros [Hw|[Hw|Hw]].
  - destruct (useEffect_cases
      (Stateful.syncActiveTab ResourceType_values TENANT isTenantsApiEnabled r)
      (Stateful.searchParams r, Stateful.activeTab r)
      ((λ p, (Stateful.searchParams p, Stateful.activeTab p)) <$> previous)) as [H | H];
      rewrite H in Hw.
    + rewrite stateful_syncActiveTab_writes in Hw. by apply not_elem_of_nil in Hw.
    + by apply not_elem_of_nil in Hw.
  - destruct (useEffect_cases (Stateful.syncUrl r)
      (Stateful.activeTab r, Stateful.searchParams r)
      ((λ p, (Stateful.activeTab p, Stateful.searchParams p)) <$> previous)) as [H | H];
      rewrite H in Hw.
    + rewrite stateful_syncUrl_writes in Hw. destruct (strict_eq _ _).
      * by apply not_elem_of_nil in Hw.
      * by apply list_elem_of_singleton in Hw.
    + by apply not_elem_of_nil in Hw.
  - destruct (useEffect_cases (Stateful.resetOnTabChange r) (Stateful.activeTab r)
      (Stateful.activeTab <$> previous)) as [H | H]; rewrite H in Hw.
    + simpl in Hw. by apply not_elem_of_nil in Hw.
    + by apply not_elem_of_nil in Hw.
Qed.

(** X6. A write of the stateful version keeps the rest of the query
    string: in the query string it hands to the router, the pairs of every
    other name are those of the current query string, in the same order,
    and exactly one pair is named [resourceType], holding the active tab;
    so every other parameter reads as before. *)
Theorem X6_stateful_write_keeps_other_parameters
    (ResourceType_values : list ResourceType) (TENANT : ResourceType)
    (isTenantsApiEnabled : bool)
    (previous : option Stateful.Render) (r : Stateful.Render)
    (next : URLSearchParams) (mode : NavigationMode) :
  (next, mode)
  ∈ writes (Stateful.effects ResourceType_values TENANT isTenantsApiEnabled previous r) →
  filter (λ kv, kv.1 ≠ "resourceType") next
  = filter (λ kv, kv.1 ≠ "resourceType") (Stateful.searchParams r)
  ∧ filter (λ kv, kv.1 = "resourceType") next
    = [("resourceType", js_String (Stateful.activeTab r))]
  ∧ (∀ k, k ≠ "resourceType" → get next k = get (Stateful.searchParams r) k)
  ∧ get next "resourceType" = Str (js_String (Stateful.activeTab r)).
Proof.
  intros [= -> _]%stateful_effects_writes.
  split; [apply set_others|]. split; [apply set_named|].
  split; [intros k Hk; by apply get_set_ne|apply get_set].
Qed.

Lemma X6_stateful_write_keeps_other_parameters_witness :
  let r := Stateful.mount sample_values sample_tenant true
             [("page", "2"); ("resourceType", "bogus"); ("resourceType", "user")] in
  let next := [("page", "2"); ("resourceType", "authorization")] in
  filter (λ kv, kv.1 ≠ "resourceType") next
  = filter (λ kv, kv.1 ≠ "resourceType") (Stateful.searchParams r)
  ∧ filter (λ kv, kv.1 = "resourceType") next
    = [("resourceType", js_String (Stateful.activeTab r))]
  ∧ (∀ k, k ≠ "resourceType" → get next k = get (Stateful.searchParams r) k)
  ∧ get next "resourceType" = Str (js_String (Stateful.activeTab r)).
Proof.
  apply (X6_stateful_write_keeps_other_parameters sample_values sample_tenant true None
           (Stateful.mount sample_values sample_tenant true
              [("page", "2"); ("resourceType", "bogus"); ("resourceType", "user")])
           [("page", "2"); ("resourceType", "authorization")] Replace).
  vm_compute. apply list_elem_of_here.
Defined.

(** X7. A write of the stateless version drops the rest of the query
    string: whatever the current query string, the one handed to the
    router by the effect or by the selection handler consists of the single
    pair [resourceType], and every other parameter reads as missing. *)
Theorem X7_stateless_write_drops_other_parameters
    (ResourceType_values : list ResourceType) (TENANT : ResourceType)
    (isTenantsApiEnabled : bool)
    (previous : option URLSearchParams) (searchParams : URLSearchParams)
    (selectedIndex : Z) (next : URLSearchParams) (mode : NavigationMode) :
  (next, mode)
  ∈ writes (Stateless.effects ResourceType_values TENANT isTenantsApiEnabled
              previous searchParams
            ++ Stateless.handleTabChange ResourceType_values TENANT isTenantsApiEnabled
                 selectedIndex) →
  (∃ value, next = [("resourceType", value)])
  ∧ ∀ k, k ≠ "resourceType" → get next k = Null.
Proof.
  rewrite writes_app, elem_of_app.
  assert (∀ v, (∃ value, createSearchParams v = [("resourceType", value)])
               ∧ ∀ k, k ≠ "resourceType" → get (createSearchParams v) k = Null) as Hone.
  { intros v. split; [by eexists|]. intros k Hk. simpl. by rewrite bool_decide_false. }
  intros [Hw|Hw].
  - unfold Stateless.effects in Hw.
    match type of Hw with context [useEffect ?b ?d ?p] =>
      destruct (useEffect_cases b d p) as [H | H]; rewrite H in Hw end.
    + pose proof (stateless_syncUrl_writes ResourceType_values TENANT isTenantsApiEnabled
                    searchParams) as Hs. simpl in Hs. rewrite Hs in Hw.
      destruct (strict_eq _ _).
      * by apply not_elem_of_nil in Hw.
      * apply list_elem_of_singleton in Hw as [= -> _]. apply Hone.
    + by apply not_elem_of_nil in Hw.
  - simpl in Hw. apply list_elem_of_singleton in Hw as [= -> _]. apply Hone.
Qed.

Lemma X7_stateless_write_drops_other_parameters_witness :
  (∃ value, [("resourceType", "authorization")] = [("resourceType", value)])
  ∧ ∀ k, k ≠ "resourceType" → get [("resourceType", "authorization")] k = Null.
Proof.
  apply (X7_stateless_write_drops_other_parameters sample_values sample_tenant true None
           [("page", "2"); ("resourceType", "bogus")] 0
           [("resourceType", "authorization")] Replace).
  vm_compute. apply list_elem_of_here.
Defined.

(** ** When the pagination is reset *)

Lemma count_calls_app (c : Cmd) (t1 t2 : list Cmd) :
  count_calls c (t1 ++ t2) = (count_calls c t1 + count_calls c t2)%nat.
Proof. unfold count_calls. by rewrite filter_app, length_app. Qed.

Lemma useEffect_count {D : Type} `{EqDecision D} (c : Cmd) (body : list Cmd) (deps : D)
    (previous : option D) :
  count_calls c body = 0%nat → count_calls c (useEffect body deps previous) = 0%nat.
Proof. intros Hbody. by destruct (useEffect_cases body deps previous) as [-> | ->]. Qed.

(** X8. The stateful version calls [resetPagination] exactly once in the
    effect phase of the first render and of every render whose active tab
    differs from that of the render before, and not at all in any other
    render (a change of the query string alone resets nothing); its
    selection handler never calls it. *)
Theorem X8_stateful_reset_exactly_on_tab_change
    (ResourceType_values : list ResourceType) (TENANT : ResourceType)
    (isTenantsApiEnabled : bool)
    (previous : option Stateful.Render) (r : Stateful.Render) (selectedIndex : Z) :
  count_calls resetPagination
    (Stateful.effects ResourceType_values TENANT isTenantsApiEnabled previous r)
  = match previous with
    | None => 1%nat
    | Some p => if decide (Stateful.activeTab p = Stateful.activeTab r) then 0%nat else 1%nat
    end
  ∧ count_calls resetPagination
      (Stateful.handleTabChange ResourceType_values TENANT isTenantsApiEnabled selectedIndex)
    = 0%nat.
Proof.
  split; [|done].
  unfold Stateful.effects. rewrite !count_calls_app.
  rewrite useEffect_count, useEffect_count.
  - destruct previous as [p|]; [|done]. simpl. unfold useEffect.
    by destruct (decide (Stateful.activeTab p = Stateful.activeTab r)).
  - unfold Stateful.syncUrl. by destruct (negb _).
  - unfold Stateful.syncActiveTab. by destruct (negb _).
Qed.

(** ** Renders that settle *)

(** X9. The stateless version settles after one render: from a first
    render, or from any world whose last render was settled (so after a
    selection or a navigation from outside), one render makes at most one
    write, in replace mode, keeps the active tab, and leaves the URL
    holding the active tab; the renders after it call nothing and change
    nothing. *)
Theorem X9_stateless_settles_after_one_render
    (ResourceType_values : list ResourceType) (TENANT : ResourceType)
    (isTenantsApiEnabled : bool) (w : Stateless.World) :
  "" ∉ ResourceType_values →
  Stateless.authorizationTabs ResourceType_values TENANT isTenantsApiEnabled ≠ [] →
  (Stateless.rendered w = None
   ∨ ∃ p, Stateless.rendered w = Some p
          ∧ Stateless.settled ResourceType_values TENANT isTenantsApiEnabled p) →
  let commit := Stateless.commit ResourceType_values TENANT isTenantsApiEnabled in
  let activeTab := Stateless.activeTab ResourceType_values TENANT isTenantsApiEnabled in
  let first := Stateless.effects ResourceType_values TENANT isTenantsApiEnabled
                 (Stateless.rendered w) (location (Stateless.router w)) in
  (length (writes first) ≤ 1)%nat
  ∧ Forall (λ write, write.2 = Replace) (writes first)
  ∧ get (location (Stateless.router (commit w))) "resourceType"
    = activeTab (location (Stateless.router w))
  ∧ activeTab (location (Stateless.router (commit w)))
    = activeTab (location (Stateless.router w))
  ∧ Stateless.effects ResourceType_values TENANT isTenantsApiEnabled
      (Stateless.rendered (commit w)) (location (Stateless.router (commit w))) = []
  ∧ ∀ n, Nat.iter n commit (commit (commit w)) = commit (commit w).
Proof.
  intros Hne Htabs Hprev commit activeTab first.
  rewrite stateless_tabs in Htabs.
  destruct (stateless_commit_settles ResourceType_values TENANT isTenantsApiEnabled
              Hne w Htabs Hprev) as (Hs & Hsame & Hlen).
  fold commit in Hs, Hsame.
  assert (∀ sp, activeTab sp
                = Stateful.getActiveTabFromUrl ResourceType_values TENANT
                    isTenantsApiEnabled sp) as Hact.
  { intros sp. unfold activeTab, Stateless.activeTab. apply stateless_initialTab. }
  split; [done|]. split; [apply stateless_effects_replace|].
  split; [by rewrite Hact, <- Hsame|]. split; [by rewrite !Hact|].
  split; [by apply stateless_settled_effects|].
  assert (commit (commit (commit w)) = commit (commit w)) as Hfix.
  { apply stateless_commit_fixpoint.
    - unfold commit at 1, Stateless.commit.
      rewrite (stateless_settled_effects _ _ _ _ _ Hs). exact Hs.
    - unfold commit at 1 3, Stateless.commit.
      by rewrite (stateless_settled_effects _ _ _ _ _ Hs). }
  intros n. induction n as [|n IH]; [done|]. simpl. by rewrite IH.
Qed.

Lemma X9_stateless_settles_after_one_render_witness :
  let w := Stateless.start [("page", "2"); ("resourceType", "bogus")] [] in
  let commit := Stateless.commit sample_values sample_tenant true in
  let activeTab := Stateless.activeTab sample_values sample_tenant true in
  let first := Stateless.effects sample_values sample_tenant true
                 (Stateless.rendered w) (location (Stateless.router w)) in
  (length (writes first) ≤ 1)%nat
  ∧ Forall (λ write, write.2 = Replace) (writes first)
  ∧ get (location (Stateless.router (commit w))) "resourceType"
    = activeTab (location (Stateless.router w))
  ∧ activeTab (location (Stateless.router (commit w)))
    = activeTab (location (Stateless.router w))
  ∧ Stateless.effects sample_values sample_tenant true
      (Stateless.rendered (commit w)) (location (Stateless.router (commit w))) = []
  ∧ ∀ n, Nat.iter n commit (commit (commit w)) = commit (commit w).
Proof.
  apply (X9_stateless_settles_after_one_render sample_values sample_tenant true
           (Stateless.start [("page", "2"); ("resourceType", "bogus")] [])).
  - apply (bool_decide_unpack _). vm_compute. exact I.
  - vm_compute. discriminate.
  - by left.
Defined.

(** X10. The first render of the stateful version settles: it makes at
    most one write, in replace mode and without a new history entry, after
    which state and URL both hold the tab resolved from the initial query
    string; the renders after it call nothing and change nothing. *)
Theorem X10_stateful_first_render_settles
    (ResourceType_values : list ResourceType) (TENANT : ResourceType)
    (isTenantsApiEnabled : bool)
    (searchParams : URLSearchParams) (history : list URLSearchParams) :
  "" ∉ ResourceType_values →
  Stateful.authorizationTabs ResourceType_values TENANT isTenantsApiEnabled ≠ [] →
  let commit := Stateful.commit ResourceType_values TENANT isTenantsApiEnabled in
  let pending := Stateful.pending ResourceType_values TENANT isTenantsApiEnabled in
  let resolved := Stateful.getActiveTabFromUrl ResourceType_values TENANT
                    isTenantsApiEnabled searchParams in
  let w0 := Stateful.start ResourceType_values TENANT isTenantsApiEnabled
              searchParams history in
  (length (writes (pending w0)) ≤ 1)%nat
  ∧ Forall (λ write, write.2 = Replace) (writes (pending w0))
  ∧ Stateful.state (commit w0) = resolved
  ∧ get (location (Stateful.router (commit w0))) "resourceType" = resolved
  ∧ history_length (Stateful.router (commit w0)) = S (length history)
  ∧ pending (commit w0) = []
  ∧ ∀ n, Nat.iter n commit (commit (commit w0)) = commit (commit w0).
Proof.
  intros Hne Htabs commit pending resolved w0.
  destruct (stateful_mount_settles ResourceType_values TENANT isTenantsApiEnabled
              Hne searchParams history Htabs) as ([Hurl Hres] & Hstate & Hrendered & Hwrites).
  fold commit w0 in Hurl, Hres, Hstate, Hrendered. fold pending w0 in Hwrites.
  fold resolved in Hstate, Hwrites.
  assert (pending (commit w0) = []) as Hnone.
  { unfold pending, Stateful.pending. rewrite Hrendered.
    apply stateful_settled_effects; [by split|].
    change (resolved = Stateful.state (commit w0)). by rewrite Hstate. }
  split; [rewrite Hwrites; destruct (strict_eq _ _); simpl; lia|].
  split; [apply stateful_effects_replace|]. split; [done|].
  split; [etrans; [exact Hurl|exact Hstate]|].
  split.
  { unfold commit, Stateful.commit. simpl. rewrite stateful_history_length.
    rewrite no_push_among_replace by apply stateful_effects_replace.
    unfold history_length. simpl. lia. }
  split; [done|].
  assert (commit (commit (commit w0)) = commit (commit w0)) as Hfix.
  { assert (commit (commit w0)
            = {| Stateful.router := Stateful.router (commit w0);
                 Stateful.state := Stateful.state (commit w0);
                 Stateful.rendered := Some (Stateful.current (commit w0)) |}) as Hnext.
    { pose proof Hnone as Hnone'. unfold pending, Stateful.pending in Hnone'.
      unfold commit at 1, Stateful.commit. by rewrite Hnone'. }
    apply stateful_commit_fixpoint; rewrite Hnext; [by split|done]. }
  intros n. induction n as [|n IH]; [done|]. simpl. by rewrite IH.
Qed.

Lemma X10_stateful_first_render_settles_witness :
  let commit := Stateful.commit sample_values sample_tenant true in
  let pending := Stateful.pending sample_values sample_tenant true in
  let resolved := Stateful.getActiveTabFromUrl sample_values sample_tenant true
                    [("page", "2"); ("resourceType", "bogus")] in
  let w0 := Stateful.start sample_values sample_tenant true
              [("page", "2"); ("resourceType", "bogus")] [[]] in
  (length (writes (pending w0)) ≤ 1)%nat
  ∧ Forall (λ write, write.2 = Replace) (writes (pending w0))
  ∧ Stateful.state (commit w0) = resolved
  ∧ get (location (Stateful.router (commit w0))) "resourceType" = resolved
  ∧ history_length (Stateful.router (commit w0)) = S (length [[] : URLSearchParams])
  ∧ pending (commit w0) = []
  ∧ ∀ n, Nat.iter n commit (commit (commit w0)) = commit (commit w0).
Proof.
  apply (X10_stateful_first_render_settles sample_values sample_tenant true
           [("page", "2"); ("resourceType", "bogus")] [[]]).
  - apply (bool_decide_unpack _). vm_compute. exact I.
  - vm_compute. discriminate.
Defined.

(** ** Selections and navigations after the first render *)

(** X11. In the stateful version a change of tab after the first render
    never settles. Take a settled world on the tab [x] and another tab [y].
    When the user selects [y], the effect phase that follows sets the state
    back to [x] and writes [y] to the URL; when the URL is changed to [y]
    from outside, it sets the state to [y] and writes [x] back to the URL.
    Either way state and URL hold different tabs after it, and every later
    render writes the URL again. *)
Theorem X11_stateful_change_of_tab_never_settles
    (ResourceType_values : list ResourceType) (TENANT : ResourceType)
    (isTenantsApiEnabled : bool) (w : Stateful.World) (x y : ResourceType)
    (selectedIndex : Z) (searchParams : URLSearchParams) :
  let tabs := Stateful.authorizationTabs ResourceType_values TENANT isTenantsApiEnabled in
  let commit := Stateful.commit ResourceType_values TENANT isTenantsApiEnabled in
  let pending := Stateful.pending ResourceType_values TENANT isTenantsApiEnabled in
  let clicked :=
    Stateful.select_tab ResourceType_values TENANT isTenantsApiEnabled selectedIndex w in
  let navigated := Stateful.external_navigation searchParams w in
  "" ∉ ResourceType_values → x ∈ tabs → y ∈ tabs → x ≠ y →
  Stateful.state w = Str x →
  get (location (Stateful.router w)) "resourceType" = Str x →
  Stateful.rendered w = Some (Stateful.current w) →
  array_get tabs selectedIndex = Str y →
  get searchParams "resourceType" = Str y →
  Stateful.state (commit clicked) = Str x
  ∧ get (location (Stateful.router (commit clicked))) "resourceType" = Str y
  ∧ Stateful.state (commit navigated) = Str y
  ∧ get (location (Stateful.router (commit navigated))) "resourceType" = Str x
  ∧ (∀ n, writes (pending (Nat.iter n commit clicked)) ≠ [])
  ∧ (∀ n, writes (pending (Nat.iter n commit navigated)) ≠ []).
Proof.
  intros tabs commit pending clicked navigated Hne Hx Hy Hxy Hstate Hurl Hrendered
    Hindex Hsp.
  assert (Stateful.crossed y x clicked) as Hclicked.
  { split; [exact Hindex|]. split; [exact Hurl|].
    unfold clicked, Stateful.select_tab. simpl. fold tabs. rewrite Hrendered, Hindex.
    unfold Stateful.current. simpl. rewrite Hstate. intros [= Heq]. congruence. }
  assert (Stateful.crossed x y navigated) as Hnavigated.
  { split; [exact Hstate|]. split; [exact Hsp|].
    unfold navigated, Stateful.external_navigation, Stateful.current. simpl.
    rewrite Hrendered. unfold Stateful.current. intros [= Heq].
    rewrite Heq in Hurl. congruence. }
  destruct (stateful_commit_crosses ResourceType_values TENANT isTenantsApiEnabled Hne
              y x clicked) as [(Hs1 & Hu1 & _) _]; [done..|].
  destruct (stateful_commit_crosses ResourceType_values TENANT isTenantsApiEnabled Hne
              x y navigated) as [(Hs2 & Hu2 & _) _]; [done..|].
  split; [done|]. split; [done|]. split; [done|]. split; [done|]. split.
  - intros n. by apply (stateful_crossed_forever ResourceType_values TENANT
                          isTenantsApiEnabled Hne n y x).
  - intros n. by apply (stateful_crossed_forever ResourceType_values TENANT
                          isTenantsApiEnabled Hne n x y).
Qed.

Lemma X11_stateful_change_of_tab_never_settles_witness :
  let w := Stateful.commit sample_values sample_tenant true
             (Stateful.start sample_values sample_tenant true
                [("resourceType", "user")] []) in
  let commit := Stateful.commit sample_values sample_tenant true in
  let pending := Stateful.pending sample_values sample_tenant true in
  let clicked := Stateful.select_tab sample_values sample_tenant true 1 w in
  let navigated := Stateful.external_navigation [("resourceType", "tenant")] w in
  Stateful.state (commit clicked) = Str "user"
  ∧ get (location (Stateful.router (commit clicked))) "resourceType" = Str "tenant"
  ∧ Stateful.state (commit navigated) = Str "tenant"
  ∧ get (location (Stateful.router (commit navigated))) "resourceType" = Str "user"
  ∧ (∀ n, writes (pending (Nat.iter n commit clicked)) ≠ [])
  ∧ (∀ n, writes (pending (Nat.iter n commit navigated)) ≠ []).
Proof.
  apply (X11_stateful_change_of_tab_never_settles sample_values sample_tenant true
           (Stateful.commit sample_values sample_tenant true
              (Stateful.start sample_values sample_tenant true
                 [("resourceType", "user")] []))
           "user" "tenant" 1 [("resourceType", "tenant")]).
  - apply (bool_decide_unpack _). vm_compute. exact I.
  - apply (bool_decide_unpack _). vm_compute. exact I.
  - apply (bool_decide_unpack _). vm_compute. exact I.
  - discriminate.
  - reflexivity.
  - reflexivity.
  - reflexivity.
  - reflexivity.
  - reflexivity.
Defined.

(** X12. Selecting the tab that is already active changes nothing in the
    stateful version: in a settled world the selection leaves the world as
    it is, the render that follows calls nothing, and the world stays a
    fixpoint. *)
Theorem X12_stateful_reselecting_active_tab
    (ResourceType_values : list ResourceType) (TENANT : ResourceType)
    (isTenantsApiEnabled : bool) (w : Stateful.World) (selectedIndex : Z) :
  let tabs := Stateful.authorizationTabs ResourceType_values TENANT isTenantsApiEnabled in
  let clicked :=
    Stateful.select_tab ResourceType_values TENANT isTenantsApiEnabled selectedIndex w in
  array_get tabs selectedIndex = Stateful.state w →
  Stateful.settled ResourceType_values TENANT isTenantsApiEnabled (Stateful.current w) →
  Stateful.rendered w = Some (Stateful.current w) →
  clicked = w
  ∧ Stateful.pending ResourceType_values TENANT isTenantsApiEnabled clicked = []
  ∧ Stateful.commit ResourceType_values TENANT isTenantsApiEnabled clicked = w.
Proof.
  intros tabs clicked Hindex Hsettled Hrendered.
  assert (clicked = w) as ->.
  { unfold clicked, Stateful.select_tab. simpl. fold tabs. rewrite Hindex. by destruct w. }
  split; [done|]. split.
  - unfold Stateful.pending. rewrite Hrendered. by apply stateful_settled_effects.
  - by apply stateful_commit_fixpoint.
Qed.

Lemma X12_stateful_reselecting_active_tab_witness :
  let w := Stateful.commit sample_values sample_tenant true
             (Stateful.start sample_values sample_tenant true
                [("resourceType", "user")] []) in
  let clicked := Stateful.select_tab sample_values sample_tenant true 2 w in
  clicked = w
  ∧ Stateful.pending sample_values sample_tenant true clicked = []
  ∧ Stateful.commit sample_values sample_tenant true clicked = w.
Proof.
  apply (X12_stateful_reselecting_active_tab sample_values sample_tenant true
           (Stateful.commit sample_values sample_tenant true
              (Stateful.start sample_values sample_tenant true
                 [("resourceType", "user")] [])) 2).
  - reflexivity.
  - split; reflexivity.
  - reflexivity.
Defined.

(** X13. A valid selection in the stateless version is complete with the
    handler: for a valid index holding the non-empty tab [x], the handler
    resets the pagination and then pushes the query string consisting of
    [resourceType=x]; the previous query string becomes the history entry
    behind it, the next render resolves to [x], and its effect phase has
    nothing to correct. *)
Theorem X13_stateless_valid_selection
    (ResourceType_values : list ResourceType) (TENANT : ResourceType)
    (isTenantsApiEnabled : bool) (w : Stateless.World) (selectedIndex : Z)
    (x : ResourceType) :
  let tabs := Stateless.authorizationTabs ResourceType_values TENANT isTenantsApiEnabled in
  let w' :=
    Stateless.select_tab ResourceType_values TENANT isTenantsApiEnabled selectedIndex w in
  0 ≤ selectedIndex → tabs !! Z.to_nat selectedIndex = Some x → x ≠ "" →
  Stateless.handleTabChange ResourceType_values TENANT isTenantsApiEnabled selectedIndex
  = [resetPagination; setSearchParams [("resourceType", x)] None]
  ∧ location (Stateless.router w') = [("resourceType", x)]
  ∧ past (Stateless.router w') = location (Stateless.router w) :: past (Stateless.router w)
  ∧ Stateless.activeTab ResourceType_values TENANT isTenantsApiEnabled
      (location (Stateless.router w')) = Str x
  ∧ Stateless.effects ResourceType_values TENANT isTenantsApiEnabled
      (Stateless.rendered w') (location (Stateless.router w')) = []
  ∧ Stateless.router (Stateless.commit ResourceType_values TENANT isTenantsApiEnabled w')
    = Stateless.router w'.
Proof.
  intros tabs w' Hlo Hx Hne.
  assert (array_get tabs selectedIndex = Str x) as Hget by by apply array_get_in_range.
  assert (x ∈ tabs) as Hin by (apply list_elem_of_lookup; eauto).
  assert (Stateless.handleTabChange ResourceType_values TENANT isTenantsApiEnabled
            selectedIndex
          = [resetPagination; setSearchParams [("resourceType", x)] None]) as Hhandler.
  { unfold Stateless.handleTabChange. fold tabs. by rewrite Hget. }
  assert (location (Stateless.router w') = [("resourceType", x)]) as Hloc.
  { unfold w', Stateless.select_tab. by rewrite Hhandler. }
  assert (Stateless.activeTab ResourceType_values TENANT isTenantsApiEnabled
            [("resourceType", x)] = Str x) as Hact.
  { unfold Stateless.activeTab. rewrite stateless_initialTab, getActiveTabFromUrl_cases.
    simpl. rewrite bool_decide_true; [done|]. split; [done|].
    unfold tabs in Hin. by rewrite stateless_tabs in Hin. }
  assert (Stateless.effects ResourceType_values TENANT isTenantsApiEnabled
            (Stateless.rendered w') (location (Stateless.router w')) = []) as Hnone.
  { rewrite Hloc. unfold Stateless.effects.
    match goal with |- context [useEffect ?b ?d ?p] =>
      destruct (useEffect_cases b d p) as [-> | ->] end; [|done].
    unfold Stateless.syncUrl. rewrite Hact. unfold Stateless.resourceTypeFromUrl. simpl.
    by rewrite (proj2 (strict_eq_true _ _) eq_refl). }
  split; [done|]. split; [done|]. split.
  { unfold w', Stateless.select_tab. by rewrite Hhandler. }
  split; [by rewrite Hloc|]. split; [done|].
  unfold Stateless.commit. by rewrite Hnone.
Qed.

Lemma X13_stateless_valid_selection_witness :
  let w := Stateless.start [("page", "4"); ("resourceType", "authorization")] [] in
  let w' := Stateless.select_tab sample_values sample_tenant true 2 w in
  Stateless.handleTabChange sample_values sample_tenant true 2
  = [resetPagination; setSearchParams [("resourceType", "user")] None]
  ∧ location (Stateless.router w') = [("resourceType", "user")]
  ∧ past (Stateless.router w') = location (Stateless.router w) :: past (Stateless.router w)
  ∧ Stateless.activeTab sample_values sample_tenant true
      (location (Stateless.router w')) = Str "user"
  ∧ Stateless.effects sample_values sample_tenant true
      (Stateless.rendered w') (location (Stateless.router w')) = []
  ∧ Stateless.router (Stateless.commit sample_values sample_tenant true w')
    = Stateless.router w'.
Proof.
  apply (X13_stateless_valid_selection sample_values sample_tenant true
           (Stateless.start [("page", "4"); ("resourceType", "authorization")] [])
           2 "user").
  - vm_compute. intros H. discriminate H.
  - reflexivity.
  - discriminate.
Defined.

(** X14. A selection out of range in the stateless version ends on the
    first tab. The handler pushes the query string [resourceType=undefined]
    (the text); unless that text is itself a tab, the next render resolves
    to the first tab and replaces the query string by the first tab's, so
    that the selection has added one history entry, holding the first
    tab. *)
Theorem X14_stateless_selection_out_of_range
    (ResourceType_values : list ResourceType) (TENANT : ResourceType)
    (isTenantsApiEnabled : bool) (w : Stateless.World) (selectedIndex : Z)
    (first : ResourceType) (rest : list ResourceType) :
  let tabs := Stateless.authorizationTabs ResourceType_values TENANT isTenantsApiEnabled in
  let w' :=
    Stateless.select_tab ResourceType_values TENANT isTenantsApiEnabled selectedIndex w in
  let w'' := Stateless.commit ResourceType_values TENANT isTenantsApiEnabled w' in
  selectedIndex < 0 ∨ Z.of_nat (length tabs) ≤ selectedIndex →
  tabs = first :: rest →
  "undefined" ∉ tabs →
  (Stateless.rendered w = None
   ∨ ∃ p, Stateless.rendered w = Some p
          ∧ Stateless.settled ResourceType_values TENANT isTenantsApiEnabled p) →
  location (Stateless.router w') = [("resourceType", "undefined")]
  ∧ Stateless.activeTab ResourceType_values TENANT isTenantsApiEnabled
      (location (Stateless.router w')) = Str first
  ∧ Stateless.effects ResourceType_values TENANT isTenantsApiEnabled
      (Stateless.rendered w') (location (Stateless.router w'))
    = [setSearchParams [("resourceType", first)] (Some {| replace := true |})]
  ∧ location (Stateless.router w'') = [("resourceType", first)]
  ∧ past (Stateless.router w'') = location (Stateless.router w) :: past (Stateless.router w)
  ∧ history_length (Stateless.router w'') = S (history_length (Stateless.router w)).
Proof.
  intros tabs w' w'' Hrange Htabs Hnot Hprev.
  assert (array_get tabs selectedIndex = Undefined) as Hget
    by by apply array_get_out_of_range.
  assert (w' = {| Stateless.router :=
                    {| location := [("resourceType", "undefined")];
                       past := location (Stateless.router w) :: past (Stateless.router w) |};
                  Stateless.rendered := Stateless.rendered w |}) as Hw'.
  { unfold w', Stateless.select_tab, Stateless.handleTabChange. fold tabs.
    by rewrite Hget. }
  assert (Stateless.activeTab ResourceType_values TENANT isTenantsApiEnabled
            [("resourceType", "undefined")] = Str first) as Hact.
  { unfold Stateless.activeTab. rewrite stateless_initialTab, getActiveTabFromUrl_cases.
    rewrite <- stateless_tabs. fold tabs. simpl.
    rewrite bool_decide_false by (by intros [_ ?]).
    by rewrite Htabs. }
  assert (Stateless.effects ResourceType_values TENANT isTenantsApiEnabled
            (Stateless.rendered w) [("resourceType", "undefined")]
          = [setSearchParams [("resourceType", first)] (Some {| replace := true |})])
    as Heff.
  { unfold Stateless.effects.
    assert (Stateless.syncUrl ResourceType_values TENANT isTenantsApiEnabled
              [("resourceType", "undefined")]
            = [setSearchParams [("resourceType", first)] (Some {| replace := true |})])
      as ->.
    { unfold Stateless.syncUrl. rewrite Hact. unfold Stateless.resourceTypeFromUrl. simpl.
      rewrite (proj2 (strict_eq_false (Str "undefined") (Str first))); [done|].
      intros [= <-]. apply Hnot. rewrite Htabs. apply list_elem_of_here. }
    destruct Hprev as [-> | (p & -> & Hp)]; [done|].
    change (useEffect ?b ?d (?f <$> Some p)) with (useEffect b d (Some (f p))).
    rewrite useEffect_changed; [done|].
    intros [= H1 H2]. unfold Stateless.settled in Hp.
    assert (Str first = Str "undefined") as [= ->].
    { etrans; [symmetry; exact Hact|]. etrans; [symmetry; exact H1|].
      etrans; [symmetry; exact Hp|]. exact H2. }
    apply Hnot. rewrite Htabs. apply list_elem_of_here. }
  unfold w''. rewrite Hw'. simpl.
  split; [done|]. split; [done|]. split; [done|].
  unfold Stateless.commit. simpl. rewrite Heff. simpl.
  split; [done|]. split; [done|]. unfold history_length. simpl. lia.
Qed.

Lemma X14_stateless_selection_out_of_range_witness :
  let w := Stateless.start [("resourceType", "user")] [] in
  let w' := Stateless.select_tab sample_values sample_tenant false 2 w in
  let w'' := Stateless.commit sample_values sample_tenant false w' in
  location (Stateless.router w') = [("resourceType", "undefined")]
  ∧ Stateless.activeTab sample_values sample_tenant false
      (location (Stateless.router w')) = Str "authorization"
  ∧ Stateless.effects sample_values sample_tenant false
      (Stateless.rendered w') (location (Stateless.router w'))
    = [setSearchParams [("resourceType", "authorization")] (Some {| replace := true |})]
  ∧ location (Stateless.router w'') = [("resourceType", "authorization")]
  ∧ past (Stateless.router w'') = location (Stateless.router w) :: past (Stateless.router w)
  ∧ history_length (Stateless.router w'') = S (history_length (Stateless.router w)).
Proof.
  apply (X14_stateless_selection_out_of_range sample_values sample_tenant false
           (Stateless.start [("resourceType", "user")] []) 2 "authorization" ["user"]).
  - right. vm_compute. intros H. discriminate H.
  - reflexivity.
  - apply (bool_decide_unpack _). vm_compute. exact I.
  - by left.
Defined.

(** ** More on the presentation transform *)



Lemma transformed_view_run (h : gmap loc cell) (v : val) (p : PageView) :
  read_page h v = Some p → transformed_view h v = Some (sorted_page p).
Proof.
  intros Hp. destruct (transform_run h v p Hp) as (l & h' & Hrun & _ & _ & Hout).
  unfold transformed_view. by rewrite Hrun.
Qed.



(** X16. What is displayed does not depend on the order in which the
    permission types arrive: two pages with the same properties whose
    records agree in their properties and carry the same permission types,
    each in any order, are transformed into pages that read the same. *)
Theorem X16_transform_ignores_arrival_order
    (h1 h2 : gmap loc cell) (data1 data2 : val) (page1 page2 : PageView) :
  read_page h1 data1 = Some page1 →
  read_page h2 data2 = Some page2 →
  page_fields page1 = page_fields page2 →
  match page_items page1, page_items page2 with
  | Some items1, Some items2 =>
      Forall2 (λ i1 i2,
          item_fields i1 = item_fields i2
          ∧ item_permissionTypes i1 ≡ₚ item_permissionTypes i2) items1 items2
  | None, None => True
  | _, _ => False
  end →
  transformed_view h1 data1 = transformed_view h2 data2
  ∧ is_Some (transformed_view h1 data1).
Proof.
  intros Hp1 Hp2 Hfields Hitems.
  rewrite (transformed_view_run _ _ _ Hp1), (transformed_view_run _ _ _ Hp2).
  split; [|by eexists]. f_equal. unfold sorted_page. rewrite Hfields. f_equal.
  destruct (page_items page1) as [items1|], (page_items page2) as [items2|];
    simpl; try done.
  f_equal. induction Hitems as [|i1 i2 items1 items2 [Hf Hperm] _ IH]; [done|].
  simpl. f_equal; [|done]. unfold sorted_item. rewrite Hf. f_equal.
  apply sorted_arrangement_unique.
  - apply StronglySorted_merge_sort; apply _.
  - by rewrite merge_sort_Permutation.
Qed.

Lemma X16_transform_ignores_arrival_order_witness :
  transformed_view sample_heap sample_page
  = transformed_view
      (<[1%positive := Arr [VStr "READ"; VStr "CREATE"; VStr "WRITE"]]> sample_heap)
      sample_page
  ∧ is_Some (transformed_view sample_heap sample_page).
Proof.
  apply (X16_transform_ignores_arrival_order sample_heap
           (<[1%positive := Arr [VStr "READ"; VStr "CREATE"; VStr "WRITE"]]> sample_heap)
           sample_page sample_page sample_view
           {| page_fields := page_fields sample_view;
              page_items := Some [
                {| item_fields := <["authorizationKey" := VStr "42"]>
                                  (<["resourceType" := VStr "user"]> ∅);
                   item_permissionTypes := ["READ"; "CREATE"; "WRITE"] |} ] |}).
  - vm_compute. reflexivity.
  - vm_compute. reflexivity.
  - reflexivity.
  - simpl. constructor; [|constructor]. split; [reflexivity|]. simpl.
    apply perm_trans with ["READ"; "WRITE"; "CREATE"].
    + apply perm_swap.
    + apply perm_skip, perm_swap.
Defined.

(** X17. A page without records keeps its shape: when the [items] property
    of the page is missing, [undefined] or [null], the transform allocates
    exactly one object, the copy of the page in which [items] is present
    and [undefined] (a [null] does not survive), and every other property
    is that of the source. *)
Theorem X17_transform_without_items
    (h : gmap loc cell) (l : loc) (props : gmap string val) :
  h !! l = Some (Obj props) →
  props !! "items" = None ∨ props !! "items" = Some VUndefined
  ∨ props !! "items" = Some VNull →
  ∃ out,
    sortPermissionTypesAlphabetically (VRef l) h
    = Some (VRef out, <[out := Obj (<["items" := VUndefined]> props)]> h)
    ∧ h !! out = None
    ∧ (<["items" := VUndefined]> props) !! "items" = Some VUndefined
    ∧ ∀ k, k ≠ "items" → (<["items" := VUndefined]> props) !! k = props !! k.
Proof.
  intros Hl Hitems. exists (fresh (dom h)).
  split; [|split; [apply fresh_lookup|split]].
  - unfold sortPermissionTypesAlphabetically. simpl.
    rewrite bind_run, (load_obj_run _ _ _ Hl).
    assert (get_prop props "items" = VUndefined ∨ get_prop props "items" = VNull)
      as [-> | ->].
    { unfold get_prop. destruct Hitems as [-> | [-> | ->]]; auto. }
    + rewrite bind_run. simpl. by rewrite alloc_run.
    + rewrite bind_run. simpl. by rewrite alloc_run.
  - apply lookup_insert_eq.
  - intros k Hk. by apply lookup_insert_ne.
Qed.

Lemma X17_transform_without_items_witness :
  ∃ out,
    sortPermissionTypesAlphabetically (VRef 1%positive) empty_page_heap
    = Some (VRef out,
            <[out := Obj (<["items" := VUndefined]> empty_page_props)]> empty_page_heap)
    ∧ empty_page_heap !! out = None
    ∧ (<["items" := VUndefined]> empty_page_props) !! "items" = Some VUndefined
    ∧ ∀ k, k ≠ "items" →
        (<["items" := VUndefined]> empty_page_props) !! k = empty_page_props !! k.
Proof.
  apply (X17_transform_without_items empty_page_heap 1%positive empty_page_props).
  - vm_compute. reflexivity.
  - right. right. vm_compute. reflexivity.
Defined.

Lemma array_sort_run_cases (h : gmap loc cell) (l : loc) (elems : list val) :
  h !! l = Some (Arr elems) →
  array_sort (VRef l) h
  = match mapM as_str elems with
    | Some strs => Some (VRef l, <[l := Arr (VStr <$> merge_sort String.le strs)]> h)
    | None => None
    end.
Proof.
  intros Hl. unfold array_sort. rewrite bind_run, (load_arr_run _ _ _ Hl).
  by destruct (mapM as_str elems).
Qed.

(** A run of the transform on a record only adds cells or rewrites the
    copy it made itself. *)
Lemma sortItem_extends (h h' : gmap loc cell) (v out : val) :
  sortItem v h = Some (out, h') → h ⊆ h'.
Proof.
  unfold sortItem. rewrite bind_run. unfold load_obj.
  destruct v as [| | | | |lv]; try done.
  destruct (h !! lv) as [[props|?]|]; try done.
  rewrite bind_run. unfold array_spread. rewrite bind_run. unfold load_arr.
  destruct (get_prop props "permissionTypes") as [| | | | |a]; try done.
  destruct (h !! a) as [[?|elems]|]; try done.
  rewrite alloc_run, bind_run.
  set (l1 := fresh (dom h)).
  rewrite (array_sort_run_cases (<[l1 := Arr elems]> h) l1 elems)
    by apply lookup_insert_eq.
  destruct (mapM as_str elems) as [strs|]; [|done].
  rewrite insert_insert_eq, alloc_run. intros [= _ <-].
  etrans; [|apply alloc_extends]. apply insert_subseteq, fresh_lookup.
Qed.

Lemma map_elems_throws (elems : list val) (e : val) : ∀ h : gmap loc cell,
  e ∈ elems →
  (∀ h', h ⊆ h' → sortItem e h' = None) →
  map_elems sortItem elems h = None.
Proof.
  induction elems as [|x rest IH]; intros h Hin Hthrows.
  { by apply not_elem_of_nil in Hin. }
  simpl. rewrite bind_run.
  destruct (sortItem x h) as [[y h1]|] eqn:Hx; [|done].
  apply elem_of_cons in Hin as [->|Hin].
  { by rewrite (Hthrows h) in Hx. }
  rewrite bind_run, (IH h1); [done|done|].
  intros h' Hsub. apply Hthrows. etrans; [|done]. by eapply sortItem_extends.
Qed.

(** X18. A record without permission types makes the whole transform
    throw: if any record of the page has no [permissionTypes] array (the
    property is missing, [undefined] or [null]), the spread fails and the
    transform returns no page, whatever the other records are. *)
Theorem X18_transform_throws_on_missing_permission_types
    (h : gmap loc cell) (l a li : loc) (props iprops : gmap string val)
    (elems : list val) :
  h !! l = Some (Obj props) →
  get_prop props "items" = VRef a →
  h !! a = Some (Arr elems) →
  VRef li ∈ elems →
  h !! li = Some (Obj iprops) →
  get_prop iprops "permissionTypes" = VUndefined
  ∨ get_prop iprops "permissionTypes" = VNull →
  sortPermissionTypesAlphabetically (VRef l) h = None.
Proof.
  intros Hl Hitems Ha Hin Hli Hmissing.
  unfold sortPermissionTypesAlphabetically. simpl.
  rewrite bind_run, (load_obj_run _ _ _ Hl), Hitems, bind_run.
  unfold array_map. rewrite bind_run, (load_arr_run _ _ _ Ha), bind_run.
  rewrite (map_elems_throws elems (VRef li)); [done|done|].
  intros h' Hsub. unfold sortItem.
  rewrite bind_run, (load_obj_run _ _ iprops) by by eapply lookup_weaken.
  rewrite bind_run. unfold array_spread. rewrite bind_run.
  by destruct Hmissing as [-> | ->].
Qed.

Lemma X18_transform_throws_on_missing_permission_types_witness :
  sortPermissionTypesAlphabetically sample_page broken_heap = None.
Proof.
  apply (X18_transform_throws_on_missing_permission_types broken_heap
           4%positive 3%positive 5%positive
           (<["items" := VRef 3%positive]> (<["totalItems" := VNum 1]> ∅))
           (<["authorizationKey" := VStr "43"]> ∅)
           [VRef 2%positive; VRef 5%positive]).
  - vm_compute. reflexivity.
  - vm_compute. reflexivity.
  - vm_compute. reflexivity.
  - apply list_elem_of_further, list_elem_of_here.
  - vm_compute. reflexivity.
  - left. vm_compute. reflexivity.
Defined.

(** X19. The result of the transform is made of new cells only: the page
    object, its items array, every record object and every permission
    array of the result are references that did not exist before the call
    (two cells per record, and the page and the array), so the result
    shares none of them with the source. *)
Theorem X19_transform_result_is_new
    (h : gmap loc cell) (authorizationData : val) (page : PageView) :
  read_page h authorizationData = Some page →
  ∃ out h',
    sortPermissionTypesAlphabetically authorizationData h = Some (out, h')
    ∧ Forall (λ l, h !! l = None) (page_refs h' out)
    ∧ length (page_refs h' out)
      = match page_items page with
        | Some items => (2 + 2 * length items)%nat
        | None => 1%nat
        end.
Proof. apply transform_run_refs. Qed.

Lemma X19_transform_result_is_new_witness :
  ∃ out h',
    sortPermissionTypesAlphabetically sample_page sample_heap = Some (out, h')
    ∧ Forall (λ l, sample_heap !! l = None) (page_refs h' out)
    ∧ length (page_refs h' out)
      = match page_items sample_view with
        | Some items => (2 + 2 * length items)%nat
        | None => 1%nat
        end.
Proof.
  apply (X19_transform_result_is_new sample_heap sample_page sample_view).
  vm_compute. reflexivity.
Defined.

(** ** The tab set and the state, in general *)

(** X20. When the tab set is empty: with the tenant flag on, exactly when
    the enumeration is empty; with the flag off, exactly when every value
    of the enumeration is the tenant value. In every other configuration
    the tab set has a first tab. *)
Theorem X20_tab_set_empty_iff
    (ResourceType_values : list ResourceType) (TENANT : ResourceType) :
  (Stateful.authorizationTabs ResourceType_values TENANT true = []
   ↔ ResourceType_values = [])
  ∧ (Stateful.authorizationTabs ResourceType_values TENANT false = []
     ↔ ∀ x, x ∈ ResourceType_values → x = TENANT)
  ∧ Stateless.authorizationTabs ResourceType_values TENANT true
    = Stateful.authorizationTabs ResourceType_values TENANT true
  ∧ Stateless.authorizationTabs ResourceType_values TENANT false
    = Stateful.authorizationTabs ResourceType_values TENANT false.
Proof.
  split; [done|]. split; [|by split].
  unfold Stateful.authorizationTabs. simpl. split.
  - intros Hnil x Hx. destruct (decide (x = TENANT)) as [|Hne]; [done|].
    assert (x ∈ filter (λ type, type ≠ TENANT) ResourceType_values) as Hin
      by by apply list_elem_of_filter.
    rewrite Hnil in Hin. by apply not_elem_of_nil in Hin.
  - intros Hall. apply filter_none. intros x Hx Hne. by apply Hne, Hall.
Qed.

Lemma stateful_state_after_trace (P : jsval → Prop) (trace : list Cmd) :
  ∀ w : Stateful.World,
  (∀ tab, setActiveTab tab ∈ trace → P tab) →
  P (Stateful.state w) →
  P (Stateful.state (foldl Stateful.run_cmd w trace)).
Proof.
  induction trace as [|c trace IH]; intros w Htrace Hw; [done|].
  simpl. apply IH.
  - intros tab Htab. by apply Htrace, list_elem_of_further.
  - destruct c; simpl; try done. apply Htrace, list_elem_of_here.
Qed.

(** X21. The effects of the stateful version keep the active tab inside
    the tab set: with a non-empty tab set, every [setActiveTab] made by an
    effect carries a member of the tab set, so a state that is a member
    stays a member through any number of renders. Only the selection
    handler, called with an index out of range, can put [undefined] into
    the state. *)
Theorem X21_stateful_effects_keep_state_a_tab
    (ResourceType_values : list ResourceType) (TENANT : ResourceType)
    (isTenantsApiEnabled : bool)
    (previous : option Stateful.Render) (r : Stateful.Render) (w : Stateful.World) :
  let tabs := Stateful.authorizationTabs ResourceType_values TENANT isTenantsApiEnabled in
  let commit := Stateful.commit ResourceType_values TENANT isTenantsApiEnabled in
  tabs ≠ [] →
  (∀ tab,
     setActiveTab tab
     ∈ Stateful.effects ResourceType_values TENANT isTenantsApiEnabled previous r →
     is_tab tabs tab)
  ∧ (is_tab tabs (Stateful.state w) → ∀ n, is_tab tabs (Stateful.state (Nat.iter n commit w))).
Proof.
  intros tabs commit Htabs.
  assert (∀ previous r tab,
            setActiveTab tab
            ∈ Stateful.effects ResourceType_values TENANT isTenantsApiEnabled previous r →
            is_tab tabs tab) as Heffects.
  { clear previous r. intros previous r tab.
    unfold Stateful.effects. rewrite !elem_of_app. intros [Hin|[Hin|Hin]].
    - match type of Hin with context [useEffect ?b ?d ?p] =>
        destruct (useEffect_cases b d p) as [H | H]; rewrite H in Hin end;
        [|by apply not_elem_of_nil in Hin].
      unfold Stateful.syncActiveTab in Hin. destruct (negb _).
      + apply list_elem_of_singleton in Hin as [= ->].
        by apply getActiveTabFromUrl_in_tabs.
      + by apply not_elem_of_nil in Hin.
    - match type of Hin with context [useEffect ?b ?d ?p] =>
        destruct (useEffect_cases b d p) as [H | H]; rewrite H in Hin end;
        [|by apply not_elem_of_nil in Hin].
      unfold Stateful.syncUrl in Hin. destruct (negb _).
      + by apply list_elem_of_singleton in Hin.
      + by apply not_elem_of_nil in Hin.
    - match type of Hin with context [useEffect ?b ?d ?p] =>
        destruct (useEffect_cases b d p) as [H | H]; rewrite H in Hin end;
        [|by apply not_elem_of_nil in Hin].
      by apply list_elem_of_singleton in Hin. }
  split; [apply Heffects|].
  intros Hw n. induction n as [|n IH]; [done|].
  simpl. unfold commit at 1, Stateful.commit. simpl.
  apply stateful_state_after_trace; [|done].
  intros tab. apply Heffects.
Qed.

Lemma X21_stateful_effects_keep_state_a_tab_witness :
  let tabs := Stateful.authorizationTabs sample_values sample_tenant true in
  let commit := Stateful.commit sample_values sample_tenant true in
  let w := Stateful.select_tab sample_values sample_tenant true 1
             (Stateful.start sample_values sample_tenant true
                [("resourceType", "user")] []) in
  (∀ tab,
     setActiveTab tab
     ∈ Stateful.effects sample_values sample_tenant true None (Stateful.current w) →
     is_tab tabs tab)
  ∧ (is_tab tabs (Stateful.state w) → ∀ n, is_tab tabs (Stateful.state (Nat.iter n commit w))).
Proof.
  apply (X21_stateful_effects_keep_state_a_tab sample_values sample_tenant true None
           (Stateful.current
              (Stateful.select_tab sample_values sample_tenant true 1
                 (Stateful.start sample_values sample_tenant true
                    [("resourceType", "user")] [])))
           (Stateful.select_tab sample_values sample_tenant true 1
              (Stateful.start sample_values sample_tenant true
                 [("resourceType", "user")] []))).
  vm_compute. discriminate.
Defined.
